(** * MediaToURL: the upload registry of [server.js]

    A shallow embedding of the Express handlers of [src/server.js] and the
    properties of the in-memory registry ([filesDatabase], [statsDatabase])
    they maintain.

    Conventions of the embedding:
    - the counters are [Z]: they move by one per request and never exceed
      the length of [filesDatabase] (see [total_never_exceeds_stored]), so
      they stay where JavaScript numbers are exact integers;
    - a property that may be [undefined] is an [option string], and the empty
      string is the only falsy string;
    - the handlers run in a small monad [JS] with state and exceptions, in
      which a [throw] keeps every mutation made before it (as in JavaScript);
    - Cloudinary is an oracle supplied by the environment of each request;
      every call made to it is appended to [cloudinaryCalls];
    - a request is handled from its first line to its response before the
      next one starts: the [await] of the delete handler and the callback of
      the upload handler are taken as soon as the provider has answered.

    The section on requests in flight lifts the last convention: there a
    handler is the two pieces [start] and [resume], and other requests may
    be handled between the two. *)

From Stdlib Require Import ZArith Lia Ascii String.
From stdpp Require Import base strings list.

Local Open Scope string_scope.
Local Open Scope Z_scope.

(** ** JavaScript helpers *)

(** [s.startsWith(p)] *)
Definition startsWith (s p : string) : bool := String.prefix p s.

(** Truthiness of a string-or-undefined value. *)
Definition truthy (v : option string) : bool :=
  match v with
  | None => false
  | Some s => negb (String.eqb s "")
  end.

(** [a || b] where [b] is a string. *)
Definition js_or (a : option string) (b : string) : string :=
  match a with
  | Some s => if String.eqb s "" then b else s
  | None => b
  end.

(** [l.findIndex(p)]: the index of the first element satisfying [p], or -1. *)
Fixpoint findIndex {A : Type} (p : A -> bool) (l : list A) : Z :=
  match l with
  | [] => -1
  | x :: l' =>
      if p x then 0
      else let i := findIndex p l' in
           if i =? -1 then -1 else i + 1
  end.

(** [l.splice(start, 1)]: the array after the call. *)
Definition splice1 {A : Type} (start : Z) (l : list A) : list A :=
  let len := Z.of_nat (length l) in
  let actualStart := if start <? 0 then Z.max (len + start) 0 else Z.min start len in
  delete (Z.to_nat actualStart) l.

(** ** Data model *)

(** [fileData], lines 91-101. *)
Record FileRecord := {
  id : string;
  name : string;
  type : string;
  size : Z;
  url : string;
  thumbnail : string;
  timestamp : string;
  format : option string;
  resourceType : option string
}.

(** [statsDatabase], lines 34-39. *)
Record Stats := {
  totalUploads : Z;
  totalImages : Z;
  totalVideos : Z;
  totalOthers : Z
}.

(** [req.file] as multer's memory storage provides it. *)
Record UploadedFile := {
  originalname : string;
  mimetype : string;
  file_size : Z;
  buffer : string
}.

(** The options object passed to [upload_stream], lines 74-79. *)
Record UploadOptions := {
  resource_type : string;
  folder : string;
  use_filename : bool;
  unique_filename : bool
}.

(** The fields of Cloudinary's upload result that the callback reads. *)
Record UploadResult := {
  public_id : string;
  secure_url : string;
  thumbnail_url : option string;
  result_format : option string;
  result_resource_type : option string
}.

(** What a call of [upload_stream] leads to: an exception at the call, or the
    callback invoked with an error or with a result. *)
Inductive UploadOutcome :=
| UploadThrows (message : string)
| CallbackError (message : string)
| CallbackResult (result : UploadResult).

(** What [await destroy(...)] leads to. *)
Inductive DestroyOutcome :=
| Resolved
| Rejected (message : string).

(** The provider as the handlers see it. *)
Record Cloudinary := {
  upload_stream : UploadOptions -> string -> UploadOutcome;
  destroy : string -> string -> DestroyOutcome
}.

(** A call made to the provider: [upload_stream] with its options, for the
    request whose buffer is [data], or [destroy] with an id and a resource
    type. *)
Inductive RemoteCall :=
| CallUpload (options : UploadOptions) (data : string)
| CallDestroy (publicId : string) (resourceTypeOption : string).

(** The environment of one request. *)
Record Env := {
  cloudinary : Cloudinary;
  now : string;
  CLOUDINARY_CLOUD_NAME : option string
}.

(** The module-level state of the server, and the calls made so far. *)
Record World := {
  filesDatabase : list FileRecord;
  statsDatabase : Stats;
  cloudinaryCalls : list RemoteCall
}.

Definition initial : World :=
  {| filesDatabase := [];
     statsDatabase := {| totalUploads := 0; totalImages := 0;
                         totalVideos := 0; totalOthers := 0 |};
     cloudinaryCalls := [] |}.

(** ** Responses *)

Inductive json :=
| JBool (b : bool)
| JString (s : string)
| JFile (f : FileRecord)
| JFiles (fs : list FileRecord)
| JStats (s : Stats).

Record Response := {
  status : Z;
  body : list (string * json)
}.

(** The value of a key of a JSON object, if the object has that key. *)
Fixpoint field (k : string) (o : list (string * json)) : option json :=
  match o with
  | [] => None
  | (k', v) :: o' => if String.eqb k k' then Some v else field k o'
  end.

(** [res.json(o)] and [res.status(c).json(o)]. *)
Definition res_json (o : list (string * json)) : Response :=
  {| status := 200; body := o |}.
Definition res_status_json (c : Z) (o : list (string * json)) : Response :=
  {| status := c; body := o |}.

(** ** The monad of handlers: state and exceptions *)

Inductive completion (A : Type) :=
| Normal (a : A)
| Thrown (message : string).
Arguments Normal {A} a.
Arguments Thrown {A} message.

Definition JS (A : Type) : Type := World -> completion A * World.

Definition ret {A : Type} (a : A) : JS A := fun w => (Normal a, w).

Definition bind {A B : Type} (m : JS A) (k : A -> JS B) : JS B :=
  fun w =>
    match m w with
    | (Normal a, w') => k a w'
    | (Thrown e, w') => (Thrown e, w')
    end.

Definition throw {A : Type} (message : string) : JS A :=
  fun w => (Thrown message, w).

(** [try { m } catch (error) { h error.message }] *)
Definition try_catch {A : Type} (m : JS A) (h : string -> JS A) : JS A :=
  fun w =>
    match m w with
    | (Normal a, w') => (Normal a, w')
    | (Thrown e, w') => h e w'
    end.

Declare Scope js_scope.
Delimit Scope js_scope with js.
Notation "x <- m ;; k" := (bind m (fun x => k))
  (at level 100, m at next level, right associativity) : js_scope.
Notation "m ;; k" := (bind m (fun _ => k))
  (at level 100, right associativity) : js_scope.
Local Open Scope js_scope.

Definition get_files : JS (list FileRecord) := fun w => (Normal (filesDatabase w), w).
Definition get_stats : JS Stats := fun w => (Normal (statsDatabase w), w).

Definition set_files (fs : list FileRecord) : JS unit :=
  fun w => (Normal tt, {| filesDatabase := fs;
                          statsDatabase := statsDatabase w;
                          cloudinaryCalls := cloudinaryCalls w |}).

Definition set_stats (s : Stats) : JS unit :=
  fun w => (Normal tt, {| filesDatabase := filesDatabase w;
                          statsDatabase := s;
                          cloudinaryCalls := cloudinaryCalls w |}).

Definition log_call (c : RemoteCall) : JS unit :=
  fun w => (Normal tt, {| filesDatabase := filesDatabase w;
                          statsDatabase := statsDatabase w;
                          cloudinaryCalls := cloudinaryCalls w ++ [c] |}).

(** [filesDatabase.unshift(f)] *)
Definition unshift (f : FileRecord) : JS unit :=
  fs <- get_files ;; set_files (f :: fs).

(** [filesDatabase.splice(i, 1)] *)
Definition splice (i : Z) : JS unit :=
  fs <- get_files ;; set_files (splice1 i fs).

(** [statsDatabase.c++] and [statsDatabase.c--], one pair per counter. *)
Definition add_totalUploads (d : Z) : JS unit :=
  s <- get_stats ;;
  set_stats {| totalUploads := totalUploads s + d; totalImages := totalImages s;
               totalVideos := totalVideos s; totalOthers := totalOthers s |}.
Definition add_totalImages (d : Z) : JS unit :=
  s <- get_stats ;;
  set_stats {| totalUploads := totalUploads s; totalImages := totalImages s + d;
               totalVideos := totalVideos s; totalOthers := totalOthers s |}.
Definition add_totalVideos (d : Z) : JS unit :=
  s <- get_stats ;;
  set_stats {| totalUploads := totalUploads s; totalImages := totalImages s;
               totalVideos := totalVideos s + d; totalOthers := totalOthers s |}.
Definition add_totalOthers (d : Z) : JS unit :=
  s <- get_stats ;;
  set_stats {| totalUploads := totalUploads s; totalImages := totalImages s;
               totalVideos := totalVideos s; totalOthers := totalOthers s + d |}.

(** [cloudinary.uploader.upload_stream(options, callback)] followed by
    [uploadStream.end(data)]: the call is recorded; it throws, or yields the
    arguments the callback is invoked with. The entry is made at the call of
    line 73 and names the buffer of the request; the buffer itself is handed
    over by [uploadStream.end] at line 124, which a throw at line 73 skips
    (see [asked], which leaves the buffer out). *)
Definition call_upload_stream (env : Env) (options : UploadOptions) (data : string)
  : JS (string + UploadResult) :=
  log_call (CallUpload options data) ;;
  match upload_stream (cloudinary env) options data with
  | UploadThrows e => throw e
  | CallbackError e => ret (inl e)
  | CallbackResult r => ret (inr r)
  end.

(** [await cloudinary.uploader.destroy(publicId, { resource_type })]: the
    call is recorded; a rejected promise is an exception at the [await]. *)
Definition await_destroy (env : Env) (publicId rt : string) : JS unit :=
  log_call (CallDestroy publicId rt) ;;
  match destroy (cloudinary env) publicId rt with
  | Resolved => ret tt
  | Rejected e => throw e
  end.

(** ** The handlers *)

(** [GET /api/files], lines 44-50. *)
Definition get_files_handler : JS Response :=
  fs <- get_files ;;
  st <- get_stats ;;
  ret (res_json [("success", JBool true); ("files", JFiles fs); ("stats", JStats st)]).

(** The resource type of an upload, lines 63-70. *)
Definition upload_resourceType (mimetype : string) : string :=
  let resourceType := "auto" in
  if startsWith mimetype "video/" then "video"
  else if startsWith mimetype "image/" then "image"
  else "raw".

(** The metadata saved for an upload, lines 91-101. *)
Definition fileData (env : Env) (file : UploadedFile) (result : UploadResult) : FileRecord :=
  {| id := public_id result;
     name := originalname file;
     type := mimetype file;
     size := file_size file;
     url := secure_url result;
     thumbnail := js_or (thumbnail_url result) (secure_url result);
     timestamp := now env;
     format := result_format result;
     resourceType := result_resource_type result |}.

(** The callback given to [upload_stream], lines 80-121. *)
Definition upload_callback (env : Env) (file : UploadedFile)
    (args : string + UploadResult) : JS Response :=
  match args with
  | inl error =>
      ret (res_status_json 500
             [("success", JBool false); ("message", JString "Upload failed");
              ("error", JString error)])
  | inr result =>
      let fileData := fileData env file result in
      unshift fileData ;;
      add_totalUploads 1 ;;
      (if startsWith (mimetype file) "image/" then add_totalImages 1
       else if startsWith (mimetype file) "video/" then add_totalVideos 1
       else add_totalOthers 1) ;;
      st <- get_stats ;;
      ret (res_json
             [("success", JBool true); ("message", JString "File uploaded successfully");
              ("file", JFile fileData); ("stats", JStats st)])
  end.

(** [POST /api/upload], lines 53-134. The [try] block either responds itself
    or leaves the response to the callback. *)
Definition upload_handler (env : Env) (req_file : option UploadedFile) : JS Response :=
  r <- try_catch
         (match req_file with
          | None =>
              ret (inl (res_status_json 400
                          [("success", JBool false); ("message", JString "No file uploaded")]))
          | Some file =>
              let resourceType := upload_resourceType (mimetype file) in
              args <- call_upload_stream env
                        {| resource_type := resourceType; folder := "uploads";
                           use_filename := true; unique_filename := true |}
                        (buffer file) ;;
              ret (inr (file, args))
          end)
         (fun error =>
            ret (inl (res_status_json 500
                        [("success", JBool false); ("message", JString "Server error");
                         ("error", JString error)]))) ;;
  match r with
  | inl response => ret response
  | inr (file, args) => upload_callback env file args
  end.

(** [DELETE /api/files/:id], lines 137-183. *)
Definition delete_handler (env : Env) (fileId : string) : JS Response :=
  try_catch
    (fs <- get_files ;;
     let fileIndex := findIndex (fun f => String.eqb (id f) fileId) fs in
     if fileIndex =? -1 then
       ret (res_status_json 404
              [("success", JBool false); ("message", JString "File not found")])
     else
       match fs !! Z.to_nat fileIndex with
       | None => throw "Cannot read properties of undefined (reading 'resourceType')"
       | Some file =>
           await_destroy env fileId (js_or (resourceType file) "image") ;;
           add_totalUploads (-1) ;;
           (if startsWith (type file) "image/" then add_totalImages (-1)
            else if startsWith (type file) "video/" then add_totalVideos (-1)
            else add_totalOthers (-1)) ;;
           splice fileIndex ;;
           st <- get_stats ;;
           ret (res_json
                  [("success", JBool true); ("message", JString "File deleted successfully");
                   ("stats", JStats st)])
       end)
    (fun error =>
       ret (res_status_json 500
              [("success", JBool false); ("message", JString "Delete failed");
               ("error", JString error)])).

(** [GET /api/stats], lines 186-191. *)
Definition get_stats_handler : JS Response :=
  st <- get_stats ;;
  ret (res_json [("success", JBool true); ("stats", JStats st)]).

(** [GET /api/health], lines 194-200. *)
Definition health_handler (env : Env) : JS Response :=
  ret (res_json
         [("success", JBool true); ("message", JString "Server is running");
          ("cloudinary", JBool (truthy (CLOUDINARY_CLOUD_NAME env)))]).

(** ** The server *)

(** A request as one of the five route handlers receives it: the route has
    matched and, for an upload, [upload.single('file')] has passed the
    request on, with a file or without one. What Express and multer answer
    themselves (another path, a body multer refuses, a file over the size
    limit of lines 25-30) never reaches a handler and is not part of the
    embedding. *)
Inductive Request :=
| GetFiles
| PostUpload (req_file : option UploadedFile)
| DeleteFile (fileId : string)
| GetStats
| GetHealth.

Definition handle (env : Env) (req : Request) : JS Response :=
  match req with
  | GetFiles => get_files_handler
  | PostUpload req_file => upload_handler env req_file
  | DeleteFile fileId => delete_handler env fileId
  | GetStats => get_stats_handler
  | GetHealth => health_handler env
  end.

(** The state after a request. *)
Definition after (env : Env) (req : Request) (w : World) : World :=
  snd (handle env req w).

(** The response to a request, if the handler produced one. *)
Definition response (env : Env) (req : Request) (w : World) : option Response :=
  match fst (handle env req w) with
  | Normal r => Some r
  | Thrown _ => None
  end.

(** The states the server goes through on a sequence of requests, each with
    its own environment: one state after each request. *)
Fixpoint states (reqs : list (Env * Request)) (w : World) : list World :=
  match reqs with
  | [] => []
  | (env, req) :: reqs' =>
      let w' := after env req w in
      w' :: states reqs' w'
  end.

(** ** The statistics buckets, as the specification names them *)

Inductive Bucket := images | videos | others.

Global Instance Bucket_eq_dec : EqDecision Bucket.
Proof. solve_decision. Defined.

(** The three-way classification of a MIME type. *)
Definition classify (mimeType : string) : Bucket :=
  if startsWith mimeType "image/" then images
  else if startsWith mimeType "video/" then videos
  else others.

(** The counter of a bucket. *)
Definition bucket_count (b : Bucket) (s : Stats) : Z :=
  match b with
  | images => totalImages s
  | videos => totalVideos s
  | others => totalOthers s
  end.

(** Adding [d] to the total and to the counter of one bucket. *)
Definition bump (b : Bucket) (d : Z) (s : Stats) : Stats :=
  {| totalUploads := totalUploads s + d;
     totalImages := if decide (b = images) then totalImages s + d else totalImages s;
     totalVideos := if decide (b = videos) then totalVideos s + d else totalVideos s;
     totalOthers := if decide (b = others) then totalOthers s + d else totalOthers s |}.

(** The number of stored records of a bucket. *)
Fixpoint stored (b : Bucket) (fs : list FileRecord) : Z :=
  match fs with
  | [] => 0
  | f :: fs' => (if decide (classify (type f) = b) then 1 else 0) + stored b fs'
  end.

(** ** Predicates on states *)

(** The total is the sum of the three buckets. *)
Definition consistent (w : World) : Prop :=
  totalUploads (statsDatabase w)
  = totalImages (statsDatabase w) + totalVideos (statsDatabase w)
    + totalOthers (statsDatabase w).

(** Every counter counts stored records: the total their number, each bucket
    the records whose stored type falls into it. *)
Definition counted (w : World) : Prop :=
  totalUploads (statsDatabase w) = Z.of_nat (length (filesDatabase w))
  /\ forall b, bucket_count b (statsDatabase w) = stored b (filesDatabase w).

Definition nonnegative (s : Stats) : Prop :=
  0 <= totalUploads s /\ 0 <= totalImages s /\ 0 <= totalVideos s /\ 0 <= totalOthers s.

(** The record a delete of [fileId] is about: the first one with that id. *)
Definition has_id (fileId : string) (f : FileRecord) : bool := String.eqb (id f) fileId.

(** The options an upload of [file] is sent with. *)
Definition sent_options (file : UploadedFile) : UploadOptions :=
  {| resource_type := upload_resourceType (mimetype file); folder := "uploads";
     use_filename := true; unique_filename := true |}.

(** The shape of the body of the health response, with the key of its
    boolean field left open. *)
Definition health_shape (key : string) (env : Env) (w : World) : Prop :=
  exists r message,
    response env GetHealth w = Some r
    /\ status r = 200
    /\ field "success" (body r) = Some (JBool true)
    /\ field "message" (body r) = Some (JString message)
    /\ field key (body r) = Some (JBool (truthy (CLOUDINARY_CLOUD_NAME env))).

(** ** The transitions of the registry *)

(** The three ways a request can leave the registry: as it was, with one
    record put in front, or with one record taken out. The last two only
    come with a 200 response. *)
Inductive transition (w w' : World) (r : Response) : Prop :=
| Unchanged :
    filesDatabase w' = filesDatabase w ->
    statsDatabase w' = statsDatabase w ->
    transition w w' r
| Inserted (f : FileRecord) :
    status r = 200 ->
    filesDatabase w' = f :: filesDatabase w ->
    statsDatabase w' = bump (classify (type f)) 1 (statsDatabase w) ->
    transition w w' r
| Removed (i : nat) (f : FileRecord) :
    status r = 200 ->
    filesDatabase w !! i = Some f ->
    filesDatabase w' = delete i (filesDatabase w) ->
    statsDatabase w' = bump (classify (type f)) (-1) (statsDatabase w) ->
    transition w w' r.

(** ** Sample data *)

Definition png : UploadedFile :=
  {| originalname := "cat.png"; mimetype := "image/png"; file_size := 100; buffer := "PNG" |}.

Definition stored_cat : UploadResult :=
  {| public_id := "uploads/cat_k3x"; secure_url := "https://res.example/uploads/cat_k3x.png";
     thumbnail_url := None; result_format := Some "png";
     result_resource_type := Some "image" |}.

(** A provider that accepts every call. *)
Definition accepting : Cloudinary :=
  {| upload_stream := fun _ _ => CallbackResult stored_cat;
     destroy := fun _ _ => Resolved |}.

(** A provider that fails every call. *)
Definition failing : Cloudinary :=
  {| upload_stream := fun _ _ => CallbackError "quota exceeded";
     destroy := fun _ _ => Rejected "network" |}.

Definition env_ok : Env :=
  {| cloudinary := accepting; now := "2024-01-01T00:00:00.000Z";
     CLOUDINARY_CLOUD_NAME := Some "demo" |}.

Definition env_down : Env :=
  {| cloudinary := failing; now := "2024-01-01T00:00:01.000Z";
     CLOUDINARY_CLOUD_NAME := Some "demo" |}.

Definition mp4 : UploadedFile :=
  {| originalname := "clip.mp4"; mimetype := "video/mp4"; file_size := 200; buffer := "MP4" |}.

(** A provider whose upload result carries no [resource_type]. *)
Definition terse : Cloudinary :=
  {| upload_stream := fun _ _ =>
       CallbackResult {| public_id := "uploads/clip_9qz";
                         secure_url := "https://res.example/uploads/clip_9qz.mp4";
                         thumbnail_url := None; result_format := None;
                         result_resource_type := None |};
     destroy := fun _ _ => Resolved |}.

Definition env_terse : Env :=
  {| cloudinary := terse; now := "2024-01-01T00:00:02.000Z";
     CLOUDINARY_CLOUD_NAME := None |}.

(** The state after one accepted upload of [png]. *)
Definition one_cat : World := after env_ok (PostUpload (Some png)) initial.

(** ** The outcome of a request, case by case *)

(** A state with one more provider call on record. *)
Definition logged (w : World) (c : RemoteCall) : World :=
  {| filesDatabase := filesDatabase w;
     statsDatabase := statsDatabase w;
     cloudinaryCalls := cloudinaryCalls w ++ [c] |}.

(** The response and the next state of every path through the handlers;
    [handle_handled] below shows that [handle] follows exactly these. *)
Inductive handled (env : Env) (w : World) : Request -> Response -> World -> Prop :=
| HandledFiles :
    handled env w GetFiles
      (res_json [("success", JBool true); ("files", JFiles (filesDatabase w));
                 ("stats", JStats (statsDatabase w))]) w
| HandledStats :
    handled env w GetStats
      (res_json [("success", JBool true); ("stats", JStats (statsDatabase w))]) w
| HandledHealth :
    handled env w GetHealth
      (res_json [("success", JBool true); ("message", JString "Server is running");
                 ("cloudinary", JBool (truthy (CLOUDINARY_CLOUD_NAME env)))]) w
| HandledNoFile :
    handled env w (PostUpload None)
      (res_status_json 400
         [("success", JBool false); ("message", JString "No file uploaded")]) w
| HandledUpload (file : UploadedFile) (result : UploadResult) :
    upload_stream (cloudinary env) (sent_options file) (buffer file) = CallbackResult result ->
    handled env w (PostUpload (Some file))
      (res_json
         [("success", JBool true); ("message", JString "File uploaded successfully");
          ("file", JFile (fileData env file result));
          ("stats", JStats (bump (classify (mimetype file)) 1 (statsDatabase w)))])
      {| filesDatabase := fileData env file result :: filesDatabase w;
         statsDatabase := bump (classify (mimetype file)) 1 (statsDatabase w);
         cloudinaryCalls :=
           cloudinaryCalls w ++ [CallUpload (sent_options file) (buffer file)] |}
| HandledUploadError (file : UploadedFile) (e : string) :
    upload_stream (cloudinary env) (sent_options file) (buffer file) = CallbackError e ->
    handled env w (PostUpload (Some file))
      (res_status_json 500
         [("success", JBool false); ("message", JString "Upload failed");
          ("error", JString e)])
      (logged w (CallUpload (sent_options file) (buffer file)))
| HandledUploadThrown (file : UploadedFile) (e : string) :
    upload_stream (cloudinary env) (sent_options file) (buffer file) = UploadThrows e ->
    handled env w (PostUpload (Some file))
      (res_status_json 500
         [("success", JBool false); ("message", JString "Server error");
          ("error", JString e)])
      (logged w (CallUpload (sent_options file) (buffer file)))
| HandledUnknown (fileId : string) :
    List.find (has_id fileId) (filesDatabase w) = None ->
    handled env w (DeleteFile fileId)
      (res_status_json 404
         [("success", JBool false); ("message", JString "File not found")]) w
| HandledDelete (fileId : string) (file : FileRecord) :
    List.find (has_id fileId) (filesDatabase w) = Some file ->
    destroy (cloudinary env) fileId (js_or (resourceType file) "image") = Resolved ->
    handled env w (DeleteFile fileId)
      (res_json
         [("success", JBool true); ("message", JString "File deleted successfully");
          ("stats", JStats (bump (classify (type file)) (-1) (statsDatabase w)))])
      {| filesDatabase :=
           delete (Z.to_nat (findIndex (has_id fileId) (filesDatabase w))) (filesDatabase w);
         statsDatabase := bump (classify (type file)) (-1) (statsDatabase w);
         cloudinaryCalls :=
           cloudinaryCalls w ++ [CallDestroy fileId (js_or (resourceType file) "image")] |}
| HandledDeleteError (fileId : string) (file : FileRecord) (e : string) :
    List.find (has_id fileId) (filesDatabase w) = Some file ->
    destroy (cloudinary env) fileId (js_or (resourceType file) "image") = Rejected e ->
    handled env w (DeleteFile fileId)
      (res_status_json 500
         [("success", JBool false); ("message", JString "Delete failed");
          ("error", JString e)])
      (logged w (CallDestroy fileId (js_or (resourceType file) "image"))).

(** What the provider was asked to do by a recorded call, without the
    buffer. *)
Inductive Asked :=
| AskedUpload (options : UploadOptions)
| AskedDestroy (publicId : string) (resourceTypeOption : string).

Definition asked (c : RemoteCall) : Asked :=
  match c with
  | CallUpload options _ => AskedUpload options
  | CallDestroy publicId rt => AskedDestroy publicId rt
  end.

(** ** Requests in flight

    The upload handler returns once [upload_stream] has been called, and its
    callback runs when the provider answers; the delete handler is suspended
    at its [await]. Other requests can be handled in between. A handler is
    therefore two pieces, [start] and [resume], each of which runs without
    interruption. *)

(** What a suspended handler holds on to: the upload callback its [req.file]
    and the arguments it will be called with; the delete handler its
    [fileIndex] and [file], and the outcome of the promise it awaits. *)
Inductive Pending :=
| AwaitingUpload (file : UploadedFile) (args : string + UploadResult)
| AwaitingDestroy (fileIndex : Z) (file : FileRecord) (outcome : DestroyOutcome).

(** Lines 54-133 without the callback. *)
Definition upload_start (env : Env) (req_file : option UploadedFile)
  : JS (Response + Pending) :=
  try_catch
    (match req_file with
     | None =>
         ret (inl (res_status_json 400
                     [("success", JBool false); ("message", JString "No file uploaded")]))
     | Some file =>
         let resourceType := upload_resourceType (mimetype file) in
         args <- call_upload_stream env
                   {| resource_type := resourceType; folder := "uploads";
                      use_filename := true; unique_filename := true |}
                   (buffer file) ;;
         ret (inr (AwaitingUpload file args))
     end)
    (fun error =>
       ret (inl (res_status_json 500
                   [("success", JBool false); ("message", JString "Server error");
                    ("error", JString error)]))).

(** Lines 138-154, up to the [await]: the lookup, and the call of [destroy]. *)
Definition delete_start (env : Env) (fileId : string) : JS (Response + Pending) :=
  try_catch
    (fs <- get_files ;;
     let fileIndex := findIndex (fun f => String.eqb (id f) fileId) fs in
     if fileIndex =? -1 then
       ret (inl (res_status_json 404
                   [("success", JBool false); ("message", JString "File not found")]))
     else
       match fs !! Z.to_nat fileIndex with
       | None => throw "Cannot read properties of undefined (reading 'resourceType')"
       | Some file =>
           log_call (CallDestroy fileId (js_or (resourceType file) "image")) ;;
           ret (inr (AwaitingDestroy fileIndex file
                       (destroy (cloudinary env) fileId (js_or (resourceType file) "image"))))
       end)
    (fun error =>
       ret (inl (res_status_json 500
                   [("success", JBool false); ("message", JString "Delete failed");
                    ("error", JString error)]))).

(** Lines 152-182, from the [await] on, with the [fileIndex] and [file] of
    the lookup. *)
Definition delete_resume (fileIndex : Z) (file : FileRecord) (outcome : DestroyOutcome)
  : JS Response :=
  try_catch
    (match outcome with
     | Resolved => ret tt
     | Rejected e => throw e
     end ;;
     add_totalUploads (-1) ;;
     (if startsWith (type file) "image/" then add_totalImages (-1)
      else if startsWith (type file) "video/" then add_totalVideos (-1)
      else add_totalOthers (-1)) ;;
     splice fileIndex ;;
     st <- get_stats ;;
     ret (res_json
            [("success", JBool true); ("message", JString "File deleted successfully");
             ("stats", JStats st)]))
    (fun error =>
       ret (res_status_json 500
              [("success", JBool false); ("message", JString "Delete failed");
               ("error", JString error)])).

(** A request up to its response or its first suspension. *)
Definition start (env : Env) (req : Request) : JS (Response + Pending) :=
  match req with
  | GetFiles => r <- get_files_handler ;; ret (inl r)
  | PostUpload req_file => upload_start env req_file
  | DeleteFile fileId => delete_start env fileId
  | GetStats => r <- get_stats_handler ;; ret (inl r)
  | GetHealth => r <- health_handler env ;; ret (inl r)
  end.

(** A suspended handler from where it was suspended to its response; [env]
    is the environment at that time (the clock of [new Date()]). *)
Definition resume (env : Env) (p : Pending) : JS Response :=
  match p with
  | AwaitingUpload file args => upload_callback env file args
  | AwaitingDestroy fileIndex file outcome => delete_resume fileIndex file outcome
  end.

(** The server with its suspended handlers. *)
Record Server := {
  world : World;
  inflight : list Pending
}.

Definition booted : Server := {| world := initial; inflight := [] |}.

(** A request arrives, or the [k]-th suspended handler is resumed. *)
Inductive Event :=
| Arrives (env : Env) (req : Request)
| Completes (env : Env) (k : nat).

Definition step (ev : Event) (s : Server) : Server :=
  match ev with
  | Arrives env req =>
      match start env req (world s) with
      | (Normal (inr p), w') => {| world := w'; inflight := inflight s ++ [p] |}
      | (_, w') => {| world := w'; inflight := inflight s |}
      end
  | Completes env k =>
      match inflight s !! k with
      | None => s
      | Some p =>
          {| world := snd (resume env p (world s)); inflight := delete k (inflight s) |}
      end
  end.

(** The server after a sequence of events. *)
Definition play (evs : list Event) (s : Server) : Server :=
  fold_left (fun s ev => step ev s) evs s.

(** The servers a sequence of events goes through, one after each event. *)
Fixpoint server_states (evs : list Event) (s : Server) : list Server :=
  match evs with
  | [] => []
  | ev :: evs' => let s' := step ev s in s' :: server_states evs' s'
  end.

(** ** Lemmas on the helpers *)

Section FindIndex.
Context {A : Type} (p : A -> bool).

Lemma findIndex_absent (l : list A) :
  List.find p l = None -> findIndex p l = -1.
Proof.
  induction l as [|x l IH]; simpl; [reflexivity|].
  destruct (p x); [discriminate|].
  intros H. rewrite (IH H). reflexivity.
Qed.

Lemma findIndex_present (l : list A) (x : A) :
  List.find p l = Some x ->
  0 <= findIndex p l /\ l !! Z.to_nat (findIndex p l) = Some x.
Proof.
  induction l as [|y l IH]; simpl; [discriminate|].
  destruct (p y).
  - intros [= ->]. split; [lia | reflexivity].
  - intros H. destruct (IH H) as [Hge Hlk].
    destruct (Z.eqb_spec (findIndex p l) (-1)) as [E|_]; [lia|].
    split; [lia|].
    replace (Z.to_nat (findIndex p l + 1)) with (S (Z.to_nat (findIndex p l))) by lia.
    exact Hlk.
Qed.

Lemma find_absent_iff (l : list A) :
  List.find p l = None <-> forall x, x ∈ l -> p x = false.
Proof.
  induction l as [|y l IH]; simpl.
  - split; [intros _ x Hx; inversion Hx | reflexivity].
  - destruct (p y) eqn:Hy.
    + split; [discriminate|]. intros H. specialize (H y (list_elem_of_here y l)). congruence.
    + rewrite IH. split.
      * intros H x Hx. apply elem_of_cons in Hx as [->|Hx]; auto.
      * intros H x Hx. apply H. by apply list_elem_of_further.
Qed.

Lemma splice1_present (l : list A) (i : Z) (x : A) :
  0 <= i -> l !! Z.to_nat i = Some x -> splice1 i l = delete (Z.to_nat i) l.
Proof.
  intros Hi Hlk. apply lookup_lt_Some in Hlk. unfold splice1.
  destruct (Z.ltb_spec i 0); [lia|].
  f_equal. lia.
Qed.
End FindIndex.

Lemma stored_nonneg (b : Bucket) (fs : list FileRecord) : 0 <= stored b fs.
Proof. induction fs as [|f fs IH]; simpl; [lia|]. destruct (decide _); lia. Qed.

Lemma stored_delete (b : Bucket) (fs : list FileRecord) (i : nat) (f : FileRecord) :
  fs !! i = Some f ->
  stored b (delete i fs) = stored b fs - (if decide (classify (type f) = b) then 1 else 0).
Proof.
  revert i. induction fs as [|g fs IH]; intros [|i]; simpl; try discriminate.
  - intros [= ->]. lia.
  - intros H. rewrite (IH _ H). lia.
Qed.

Lemma length_delete_present (fs : list FileRecord) (i : nat) (f : FileRecord) :
  fs !! i = Some f -> Z.of_nat (length (delete i fs)) = Z.of_nat (length fs) - 1.
Proof.
  intros H. assert (is_Some (fs !! i)) as Hs by eauto.
  rewrite (length_delete _ _ Hs). apply lookup_lt_Some in H. lia.
Qed.

(** ** What each handler does *)

Ltac run_js :=
  unfold upload_handler, upload_callback, delete_handler, get_files_handler,
    get_stats_handler, health_handler, call_upload_stream, await_destroy,
    unshift, splice, add_totalUploads, add_totalImages, add_totalVideos,
    add_totalOthers, try_catch, bind, ret, throw, get_files, get_stats,
    set_files, set_stats, log_call; cbn.

Lemma bump_classify_cases (t : string) (d : Z) (s : Stats) :
  bump (classify t) d s =
  if startsWith t "image/" then
    {| totalUploads := totalUploads s + d; totalImages := totalImages s + d;
       totalVideos := totalVideos s; totalOthers := totalOthers s |}
  else if startsWith t "video/" then
    {| totalUploads := totalUploads s + d; totalImages := totalImages s;
       totalVideos := totalVideos s + d; totalOthers := totalOthers s |}
  else
    {| totalUploads := totalUploads s + d; totalImages := totalImages s;
       totalVideos := totalVideos s; totalOthers := totalOthers s + d |}.
Proof.
  unfold classify. destruct (startsWith t "image/"); [reflexivity|].
  destruct (startsWith t "video/"); reflexivity.
Qed.

(** A successful upload: the record is put in front and one bucket counted. *)
Lemma upload_handler_result (env : Env) (file : UploadedFile) (result : UploadResult)
    (w : World) :
  upload_stream (cloudinary env) (sent_options file) (buffer file) = CallbackResult result ->
  upload_handler env (Some file) w =
  (Normal (res_json
             [("success", JBool true); ("message", JString "File uploaded successfully");
              ("file", JFile (fileData env file result));
              ("stats", JStats (bump (classify (mimetype file)) 1 (statsDatabase w)))]),
   {| filesDatabase := fileData env file result :: filesDatabase w;
      statsDatabase := bump (classify (mimetype file)) 1 (statsDatabase w);
      cloudinaryCalls := cloudinaryCalls w ++ [CallUpload (sent_options file) (buffer file)] |}).
Proof.
  intros H. rewrite bump_classify_cases. unfold sent_options in *. run_js. rewrite H.
  destruct (startsWith (mimetype file) "image/"); [reflexivity|].
  destruct (startsWith (mimetype file) "video/"); reflexivity.
Qed.

(** A failed upload: only the call is recorded. *)
Lemma upload_handler_failure (env : Env) (file : UploadedFile) (w : World) :
  (forall result,
     upload_stream (cloudinary env) (sent_options file) (buffer file) <> CallbackResult result) ->
  exists r,
    upload_handler env (Some file) w =
    (Normal r,
     {| filesDatabase := filesDatabase w;
        statsDatabase := statsDatabase w;
        cloudinaryCalls := cloudinaryCalls w ++ [CallUpload (sent_options file) (buffer file)] |})
    /\ status r = 500.
Proof.
  intros H. unfold sent_options in *. run_js.
  destruct (upload_stream _ _ _) as [e|e|result]; cbn.
  - eexists; split; reflexivity.
  - eexists; split; reflexivity.
  - destruct (H result eq_refl).
Qed.

(** An upload request without a file. *)
Lemma upload_handler_no_file (env : Env) (w : World) :
  upload_handler env None w =
  (Normal (res_status_json 400
             [("success", JBool false); ("message", JString "No file uploaded")]), w).
Proof. reflexivity. Qed.

(** A delete of an unknown id. *)
Lemma delete_handler_absent (env : Env) (fileId : string) (w : World) :
  List.find (has_id fileId) (filesDatabase w) = None ->
  delete_handler env fileId w =
  (Normal (res_status_json 404
             [("success", JBool false); ("message", JString "File not found")]), w).
Proof.
  intros H. apply findIndex_absent in H. unfold has_id in H. run_js. rewrite H.
  reflexivity.
Qed.

(** A delete that the provider carries out. *)
Lemma delete_handler_resolved (env : Env) (fileId : string) (file : FileRecord) (w : World) :
  List.find (has_id fileId) (filesDatabase w) = Some file ->
  destroy (cloudinary env) fileId (js_or (resourceType file) "image") = Resolved ->
  delete_handler env fileId w =
  (Normal (res_json
             [("success", JBool true); ("message", JString "File deleted successfully");
              ("stats", JStats (bump (classify (type file)) (-1) (statsDatabase w)))]),
   {| filesDatabase :=
        delete (Z.to_nat (findIndex (has_id fileId) (filesDatabase w))) (filesDatabase w);
      statsDatabase := bump (classify (type file)) (-1) (statsDatabase w);
      cloudinaryCalls :=
        cloudinaryCalls w ++ [CallDestroy fileId (js_or (resourceType file) "image")] |}).
Proof.
  intros Hfind Hd. destruct (findIndex_present _ _ _ Hfind) as [Hge Hlk].
  rewrite <- (splice1_present _ _ _ Hge Hlk). rewrite bump_classify_cases.
  unfold has_id in *. run_js.
  destruct (Z.eqb_spec (findIndex (fun f => String.eqb (id f) fileId) (filesDatabase w)) (-1));
    [lia|].
  rewrite Hlk. cbn. rewrite Hd.
  destruct (startsWith (type file) "image/"); [reflexivity|].
  destruct (startsWith (type file) "video/"); reflexivity.
Qed.

(** A delete that the provider rejects: only the call is recorded. *)
Lemma delete_handler_rejected (env : Env) (fileId : string) (file : FileRecord) (w : World)
    (e : string) :
  List.find (has_id fileId) (filesDatabase w) = Some file ->
  destroy (cloudinary env) fileId (js_or (resourceType file) "image") = Rejected e ->
  delete_handler env fileId w =
  (Normal (res_status_json 500
             [("success", JBool false); ("message", JString "Delete failed");
              ("error", JString e)]),
   {| filesDatabase := filesDatabase w;
      statsDatabase := statsDatabase w;
      cloudinaryCalls :=
        cloudinaryCalls w ++ [CallDestroy fileId (js_or (resourceType file) "image")] |}).
Proof.
  intros Hfind Hd. destruct (findIndex_present _ _ _ Hfind) as [Hge Hlk].
  unfold has_id in *. run_js.
  destruct (Z.eqb_spec (findIndex (fun f => String.eqb (id f) fileId) (filesDatabase w)) (-1));
    [lia|].
  rewrite Hlk. cbn. rewrite Hd. reflexivity.
Qed.

(** ** One request, in general *)

Lemma handle_transition (env : Env) (req : Request) (w : World) :
  exists r w', handle env req w = (Normal r, w') /\ transition w w' r.
Proof.
  destruct req as [|[file|]|fileId| |]; cbn [handle].
  - eexists _, _. split; [reflexivity|]. by apply Unchanged.
  - destruct (upload_stream (cloudinary env) (sent_options file) (buffer file))
      as [e|e|result] eqn:E.
    + destruct (upload_handler_failure env file w) as (r & Hr & _); [congruence|].
      eexists _, _. split; [exact Hr|]. by apply Unchanged.
    + destruct (upload_handler_failure env file w) as (r & Hr & _); [congruence|].
      eexists _, _. split; [exact Hr|]. by apply Unchanged.
    + eexists _, _. split; [exact (upload_handler_result env file result w E)|].
      by apply (Inserted _ _ _ (fileData env file result)).
  - eexists _, _. split; [reflexivity|]. by apply Unchanged.
  - destruct (List.find (has_id fileId) (filesDatabase w)) as [file|] eqn:Hfind.
    + destruct (findIndex_present _ _ _ Hfind) as [_ Hlk].
      destruct (destroy (cloudinary env) fileId (js_or (resourceType file) "image"))
        as [|e] eqn:Hd.
      * eexists _, _. split; [exact (delete_handler_resolved env fileId file w Hfind Hd)|].
        by eapply Removed.
      * eexists _, _. split; [exact (delete_handler_rejected env fileId file w e Hfind Hd)|].
        by apply Unchanged.
    + eexists _, _. split; [exact (delete_handler_absent env fileId w Hfind)|].
      by apply Unchanged.
  - eexists _, _. split; [reflexivity|]. by apply Unchanged.
  - eexists _, _. split; [reflexivity|]. by apply Unchanged.
Qed.

Lemma after_transition (env : Env) (req : Request) (w : World) :
  exists r, response env req w = Some r /\ transition w (after env req w) r.
Proof.
  destruct (handle_transition env req w) as (r & w' & H & Ht).
  exists r. unfold response, after. rewrite H. by split.
Qed.

(** ** Invariants *)

Ltac by_buckets := repeat case_decide; try discriminate; try congruence; try lia.

Lemma bump_consistent (b : Bucket) (d : Z) (s : Stats) :
  totalUploads s = totalImages s + totalVideos s + totalOthers s ->
  totalUploads (bump b d s)
  = totalImages (bump b d s) + totalVideos (bump b d s) + totalOthers (bump b d s).
Proof. destruct b; unfold bump; cbn; by_buckets. Qed.

Lemma bucket_count_bump (b b' : Bucket) (d : Z) (s : Stats) :
  bucket_count b' (bump b d s) = bucket_count b' s + (if decide (b = b') then d else 0).
Proof. destruct b, b'; unfold bump; cbn; by_buckets. Qed.

Lemma after_consistent (env : Env) (req : Request) (w : World) :
  consistent w -> consistent (after env req w).
Proof.
  intros Hw. destruct (after_transition env req w) as (r & _ & [Hf Hs|f _ Hf Hs|i f _ _ Hf Hs]);
    unfold consistent in *; rewrite Hs; auto using bump_consistent.
Qed.

Lemma after_counted (env : Env) (req : Request) (w : World) :
  counted w -> counted (after env req w).
Proof.
  intros [Hlen Hb].
  destruct (after_transition env req w) as (r & _ & [Hf Hs|f _ Hf Hs|i f _ Hlk Hf Hs]);
    unfold counted; rewrite Hf, Hs.
  - by split.
  - split.
    + cbn. lia.
    + intros b. rewrite bucket_count_bump, Hb. cbn. by_buckets.
  - split.
    + rewrite (length_delete_present _ _ _ Hlk). cbn. lia.
    + intros b. rewrite bucket_count_bump, Hb, (stored_delete _ _ _ _ Hlk).
      by_buckets.
Qed.

Lemma initial_consistent : consistent initial.
Proof. reflexivity. Qed.

Lemma initial_counted : counted initial.
Proof. split; [reflexivity|]. by intros []. Qed.

Lemma counted_nonnegative (w : World) : counted w -> nonnegative (statsDatabase w).
Proof.
  intros [Hlen Hb]. unfold nonnegative. rewrite Hlen.
  pose proof (Hb images) as Hi. pose proof (Hb videos) as Hv. pose proof (Hb others) as Ho.
  cbn in Hi, Hv, Ho. rewrite Hi, Hv, Ho.
  repeat split; auto using stored_nonneg. lia.
Qed.

(** An invariant of single requests holds in every state of a sequence. *)
Lemma states_invariant (P : World -> Prop) :
  (forall env req w, P w -> P (after env req w)) ->
  forall reqs w, P w -> Forall P (states reqs w).
Proof.
  intros Hstep reqs. induction reqs as [|[env req] reqs IH]; intros w Hw; cbn.
  - constructor.
  - constructor; [by apply Hstep|]. apply IH. by apply Hstep.
Qed.

Lemma prefix_image_not_video (t : string) :
  startsWith t "image/" = true -> startsWith t "video/" = false.
Proof.
  unfold startsWith. destruct t as [|c t]; cbn [String.prefix]; [discriminate|].
  destruct (Ascii.ascii_dec "i"%char c) as [<-|_]; [|discriminate].
  intros _. destruct (Ascii.ascii_dec "v"%char "i"%char); [discriminate|reflexivity].
Qed.

Lemma bump_undo (b : Bucket) (s : Stats) : bump b (-1) (bump b 1 s) = s.
Proof. destruct s, b; unfold bump; cbn; f_equal; by_buckets. Qed.

Lemma find_absent_In (fileId : string) (fs : list FileRecord) :
  (forall f, In f fs -> id f <> fileId) -> List.find (has_id fileId) fs = None.
Proof.
  intros H. apply find_absent_iff. intros f Hf. apply list_elem_of_In in Hf.
  unfold has_id. apply String.eqb_neq. by apply H.
Qed.

(** ** The registry *)

(** C1. On every finite sequence of requests handled from the empty initial
    state (successful uploads and successful deletes among them), the state
    after each request satisfies
    [totalUploads = totalImages + totalVideos + totalOthers]. *)
Theorem total_is_sum_of_buckets (reqs : list (Env * Request)) :
  Forall (fun w =>
            totalUploads (statsDatabase w)
            = totalImages (statsDatabase w) + totalVideos (statsDatabase w)
              + totalOthers (statsDatabase w))
         (states reqs initial).
Proof.
  apply (states_invariant consistent).
  - apply after_consistent.
  - exact initial_consistent.
Qed.

(** C2. A successful upload puts its record in front: the list returned by
    [GET /api/files] right after it is the new record followed by the list
    returned right before it. *)
Theorem insert_prepends (env env' : Env) (file : UploadedFile) (result : UploadResult)
    (w : World) :
  upload_stream (cloudinary env) (sent_options file) (buffer file) = CallbackResult result ->
  exists before fs r,
    response env' GetFiles w = Some before
    /\ field "files" (body before) = Some (JFiles fs)
    /\ response env' GetFiles (after env (PostUpload (Some file)) w) = Some r
    /\ field "files" (body r) = Some (JFiles (fileData env file result :: fs)).
Proof.
  intros H. unfold after. cbn [handle]. rewrite (upload_handler_result env file result w H).
  eexists _, _, _. repeat split.
Qed.

Lemma insert_prepends_witness :
  exists before fs r,
    response env_ok GetFiles one_cat = Some before
    /\ field "files" (body before) = Some (JFiles fs)
    /\ response env_ok GetFiles (after env_ok (PostUpload (Some png)) one_cat) = Some r
    /\ field "files" (body r) = Some (JFiles (fileData env_ok png stored_cat :: fs)).
Proof. apply (insert_prepends env_ok env_ok png stored_cat one_cat). reflexivity. Defined.

(** C3. A delete of an id that no record has answers 404 "File not found"
    and changes nothing: the list and the counters are as before, and no call
    is made to the provider. *)
Theorem remove_absent_is_not_found (env : Env) (fileId : string) (w : World) :
  (forall f, In f (filesDatabase w) -> id f <> fileId) ->
  exists r,
    response env (DeleteFile fileId) w = Some r
    /\ status r = 404
    /\ field "success" (body r) = Some (JBool false)
    /\ field "message" (body r) = Some (JString "File not found")
    /\ filesDatabase (after env (DeleteFile fileId) w) = filesDatabase w
    /\ statsDatabase (after env (DeleteFile fileId) w) = statsDatabase w
    /\ cloudinaryCalls (after env (DeleteFile fileId) w) = cloudinaryCalls w.
Proof.
  intros H. apply find_absent_In in H.
  unfold response, after. cbn [handle]. rewrite (delete_handler_absent env fileId w H).
  eexists. repeat split.
Qed.

Lemma remove_absent_is_not_found_witness :
  (forall f, In f (filesDatabase one_cat) -> id f <> "uploads/dog")
  /\ exists r,
    response env_ok (DeleteFile "uploads/dog") one_cat = Some r
    /\ status r = 404
    /\ field "success" (body r) = Some (JBool false)
    /\ field "message" (body r) = Some (JString "File not found")
    /\ filesDatabase (after env_ok (DeleteFile "uploads/dog") one_cat) = filesDatabase one_cat
    /\ statsDatabase (after env_ok (DeleteFile "uploads/dog") one_cat) = statsDatabase one_cat
    /\ cloudinaryCalls (after env_ok (DeleteFile "uploads/dog") one_cat)
       = cloudinaryCalls one_cat.
Proof.
  assert (forall f, In f (filesDatabase one_cat) -> id f <> "uploads/dog") as H.
  { intros f [<-|[]]. discriminate. }
  split; [exact H|].
  exact (remove_absent_is_not_found env_ok "uploads/dog" one_cat H).
Defined.

(** C4. The bucket of a record is a three-way function of its MIME type
    ([image/...] to images, [video/...] to videos, anything else to others),
    and a successful upload and a successful delete use the same one: the
    upload adds one to the total and to the bucket of the uploaded file's
    type, the delete takes one from the total and from the bucket of the
    stored type, and the two other buckets stay as they were. *)
Theorem buckets_by_type (env : Env) (w : World) :
  (forall t, startsWith t "image/" = true -> classify t = images)
  /\ (forall t, startsWith t "video/" = true -> classify t = videos)
  /\ (forall t, startsWith t "image/" = false -> startsWith t "video/" = false ->
                classify t = others)
  /\ classify "image/png" = images
  /\ classify "video/mp4" = videos
  /\ classify "application/pdf" = others
  /\ (forall file result,
        upload_stream (cloudinary env) (sent_options file) (buffer file)
        = CallbackResult result ->
        let w' := after env (PostUpload (Some file)) w in
        totalUploads (statsDatabase w') = totalUploads (statsDatabase w) + 1
        /\ forall b,
             bucket_count b (statsDatabase w')
             = bucket_count b (statsDatabase w)
               + (if decide (classify (mimetype file) = b) then 1 else 0))
  /\ (forall fileId file,
        List.find (has_id fileId) (filesDatabase w) = Some file ->
        destroy (cloudinary env) fileId (js_or (resourceType file) "image") = Resolved ->
        let w' := after env (DeleteFile fileId) w in
        totalUploads (statsDatabase w') = totalUploads (statsDatabase w) - 1
        /\ forall b,
             bucket_count b (statsDatabase w')
             = bucket_count b (statsDatabase w)
               - (if decide (classify (type file) = b) then 1 else 0)).
Proof.
  repeat apply conj; try reflexivity.
  - intros t H. unfold classify. by rewrite H.
  - intros t H. unfold classify.
    destruct (startsWith t "image/") eqn:Hi; [|by rewrite H].
    apply prefix_image_not_video in Hi. congruence.
  - intros t Hi Hv. unfold classify. by rewrite Hi, Hv.
  - intros file result H w'. unfold w', after. cbn [handle].
    rewrite (upload_handler_result env file result w H). cbn [snd statsDatabase].
    split; [reflexivity|]. intros b. rewrite bucket_count_bump. by_buckets.
  - intros fileId file Hfind Hd w'. unfold w', after. cbn [handle].
    rewrite (delete_handler_resolved env fileId file w Hfind Hd). cbn [snd statsDatabase].
    split; [reflexivity|]. intros b. rewrite bucket_count_bump. by_buckets.
Qed.

Lemma buckets_by_type_witness :
  classify "image/png" = images
  /\ totalUploads (statsDatabase one_cat) = totalUploads (statsDatabase initial) + 1
  /\ bucket_count images (statsDatabase one_cat) = bucket_count images (statsDatabase initial) + 1
  /\ totalUploads (statsDatabase (after env_ok (DeleteFile "uploads/cat_k3x") one_cat))
     = totalUploads (statsDatabase one_cat) - 1
  /\ bucket_count images (statsDatabase (after env_ok (DeleteFile "uploads/cat_k3x") one_cat))
     = bucket_count images (statsDatabase one_cat) - 1.
Proof.
  destruct (buckets_by_type env_ok initial) as (Hi & _ & _ & _ & _ & _ & Hup & _).
  destruct (buckets_by_type env_ok one_cat) as (_ & _ & _ & _ & _ & _ & _ & Hdel).
  split; [apply Hi; reflexivity|].
  destruct (Hup png stored_cat eq_refl) as [Ht Hb].
  destruct (Hdel "uploads/cat_k3x" (fileData env_ok png stored_cat) eq_refl eq_refl)
    as [Ht' Hb'].
  split; [exact Ht|]. split; [exact (Hb images)|].
  split; [exact Ht'|]. exact (Hb' images).
Defined.

(** C5. Every upload that reaches the provider is sent with a resource type
    computed from the MIME type of the file: [video] when it starts with
    [video/], [image] when it starts with [image/], [raw] otherwise; [auto]
    is never sent. *)
Theorem upload_resource_type_routing (env : Env) (file : UploadedFile) (w : World) :
  exists rt,
    cloudinaryCalls (after env (PostUpload (Some file)) w)
    = (cloudinaryCalls w
       ++ [CallUpload {| resource_type := rt; folder := "uploads";
                         use_filename := true; unique_filename := true |} (buffer file)])%list
    /\ (startsWith (mimetype file) "video/" = true -> rt = "video")
    /\ (startsWith (mimetype file) "image/" = true -> rt = "image")
    /\ (startsWith (mimetype file) "video/" = false ->
        startsWith (mimetype file) "image/" = false -> rt = "raw")
    /\ rt <> "auto".
Proof.
  exists (upload_resourceType (mimetype file)). split.
  - fold (sent_options file).
    destruct (upload_stream (cloudinary env) (sent_options file) (buffer file))
      as [e|e|result] eqn:E; unfold after; cbn [handle].
    + destruct (upload_handler_failure env file w) as (r & -> & _); [congruence|reflexivity].
    + destruct (upload_handler_failure env file w) as (r & -> & _); [congruence|reflexivity].
    + by rewrite (upload_handler_result env file result w E).
  - unfold upload_resourceType.
    destruct (startsWith (mimetype file) "image/") eqn:Hi.
    + rewrite (prefix_image_not_video _ Hi). repeat split; congruence.
    + destruct (startsWith (mimetype file) "video/"); repeat split; congruence.
Qed.

Lemma upload_resource_type_routing_witness :
  exists rt,
    cloudinaryCalls (after env_down (PostUpload (Some png)) initial)
    = [CallUpload {| resource_type := rt; folder := "uploads";
                     use_filename := true; unique_filename := true |} "PNG"]
    /\ rt = "image" /\ rt <> "auto".
Proof.
  destruct (upload_resource_type_routing env_down png initial) as (rt & Hc & _ & Hi & _ & Ha).
  exists rt. split; [exact Hc|]. split; [apply Hi; reflexivity | exact Ha].
Defined.

(** C6. A successful upload of a record whose id is not yet in the registry,
    followed at once by a successful delete of that id, is a round trip: the
    list is the one before the upload, and the delete takes one from the
    bucket the upload added one to, so the counters are the ones before. *)
Theorem insert_remove_round_trip (env env' : Env) (file : UploadedFile)
    (result : UploadResult) (w : World) :
  (forall f, In f (filesDatabase w) -> id f <> public_id result) ->
  upload_stream (cloudinary env) (sent_options file) (buffer file) = CallbackResult result ->
  destroy (cloudinary env') (public_id result) (js_or (result_resource_type result) "image")
  = Resolved ->
  let w1 := after env (PostUpload (Some file)) w in
  let w2 := after env' (DeleteFile (public_id result)) w1 in
  filesDatabase w2 = filesDatabase w
  /\ length (filesDatabase w2) = length (filesDatabase w)
  /\ (exists b, statsDatabase w1 = bump b 1 (statsDatabase w)
                /\ statsDatabase w2 = bump b (-1) (statsDatabase w1))
  /\ statsDatabase w2 = statsDatabase w.
Proof.
  intros _ Hup Hd w1 w2.
  assert (w1 = {| filesDatabase := fileData env file result :: filesDatabase w;
                  statsDatabase := bump (classify (mimetype file)) 1 (statsDatabase w);
                  cloudinaryCalls :=
                    cloudinaryCalls w ++ [CallUpload (sent_options file) (buffer file)] |})
    as E1.
  { unfold w1, after. cbn [handle]. by rewrite (upload_handler_result env file result w Hup). }
  assert (List.find (has_id (public_id result)) (filesDatabase w1)
          = Some (fileData env file result)) as Hfind.
  { rewrite E1. cbn. unfold has_id. cbn. by rewrite String.eqb_refl. }
  assert (findIndex (has_id (public_id result)) (filesDatabase w1) = 0) as Hidx.
  { rewrite E1. cbn. unfold has_id. cbn. by rewrite String.eqb_refl. }
  assert (filesDatabase w2 = filesDatabase w
          /\ statsDatabase w2 = bump (classify (mimetype file)) (-1) (statsDatabase w1))
    as [Hf Hs].
  { unfold w2, after. cbn [handle].
    rewrite (delete_handler_resolved env' _ _ w1 Hfind Hd). cbn [snd filesDatabase statsDatabase].
    rewrite Hidx. rewrite E1. by split. }
  split; [exact Hf|]. split; [by rewrite Hf|]. split.
  - exists (classify (mimetype file)). split; [by rewrite E1 | exact Hs].
  - rewrite Hs, E1. apply bump_undo.
Qed.

Lemma insert_remove_round_trip_witness :
  filesDatabase (after env_ok (DeleteFile "uploads/cat_k3x") one_cat) = []
  /\ statsDatabase (after env_ok (DeleteFile "uploads/cat_k3x") one_cat)
     = statsDatabase initial.
Proof.
  destruct (insert_remove_round_trip env_ok env_ok png stored_cat initial)
    as (Hf & _ & _ & Hs).
  - intros f [].
  - reflexivity.
  - reflexivity.
  - split; [exact Hf | exact Hs].
Defined.

(** C7. The registry is only changed once the provider has answered with
    success. When the upload fails (the call throws, or the callback gets an
    error) the response is a 500, nothing is inserted and the counters are
    as before; when the destroy of a stored record is rejected the response
    is a 500, the record stays and the counters are as before; and every
    request answered with an error status leaves the list and the counters
    as they were. *)
Theorem failures_leave_registry (env : Env) (w : World) :
  (forall file e,
      upload_stream (cloudinary env) (sent_options file) (buffer file) = CallbackError e
      \/ upload_stream (cloudinary env) (sent_options file) (buffer file) = UploadThrows e ->
      exists r,
        response env (PostUpload (Some file)) w = Some r
        /\ status r = 500
        /\ filesDatabase (after env (PostUpload (Some file)) w) = filesDatabase w
        /\ statsDatabase (after env (PostUpload (Some file)) w) = statsDatabase w)
  /\ (forall fileId file e,
        List.find (has_id fileId) (filesDatabase w) = Some file ->
        destroy (cloudinary env) fileId (js_or (resourceType file) "image") = Rejected e ->
        exists r,
          response env (DeleteFile fileId) w = Some r
          /\ status r = 500
          /\ filesDatabase (after env (DeleteFile fileId) w) = filesDatabase w
          /\ statsDatabase (after env (DeleteFile fileId) w) = statsDatabase w)
  /\ (forall req,
        exists r,
          response env req w = Some r
          /\ (status r <> 200 ->
              filesDatabase (after env req w) = filesDatabase w
              /\ statsDatabase (after env req w) = statsDatabase w)).
Proof.
  repeat apply conj.
  - intros file e H.
    destruct (upload_handler_failure env file w) as (r & Hr & Hs).
    { intros result. destruct H as [H|H]; rewrite H; discriminate. }
    exists r. unfold response, after. cbn [handle]. rewrite Hr. by repeat split.
  - intros fileId file e Hfind Hd. unfold response, after. cbn [handle].
    rewrite (delete_handler_rejected env fileId file w e Hfind Hd).
    eexists. by repeat split.
  - intros req. destruct (after_transition env req w) as (r & Hr & Ht).
    exists r. split; [exact Hr|]. intros Hne.
    destruct Ht as [Hf Hs|f H200 _ _|i f H200 _ _ _]; [by split | by destruct Hne..].
Qed.

Lemma failures_leave_registry_witness :
  (exists r,
      response env_down (PostUpload (Some png)) one_cat = Some r
      /\ status r = 500
      /\ filesDatabase (after env_down (PostUpload (Some png)) one_cat) = filesDatabase one_cat
      /\ statsDatabase (after env_down (PostUpload (Some png)) one_cat)
         = statsDatabase one_cat)
  /\ (exists r,
        response env_down (DeleteFile "uploads/cat_k3x") one_cat = Some r
        /\ status r = 500
        /\ filesDatabase (after env_down (DeleteFile "uploads/cat_k3x") one_cat)
           = filesDatabase one_cat
        /\ statsDatabase (after env_down (DeleteFile "uploads/cat_k3x") one_cat)
           = statsDatabase one_cat).
Proof.
  destruct (failures_leave_registry env_down one_cat) as (Hup & Hdel & _).
  split.
  - apply (Hup png "quota exceeded"). left. reflexivity.
  - apply (Hdel "uploads/cat_k3x" (fileData env_ok png stored_cat) "network"); reflexivity.
Defined.

(** C8, as the specification words it, fails: the body of the health
    response has no field named [cloudinaryConfigured]. *)
Lemma health_field_name_counterexample :
  ~ health_shape "cloudinaryConfigured" env_ok initial.
Proof.
  intros (r & message & Hr & _ & _ & _ & Hk).
  injection Hr as <-. discriminate Hk.
Qed.

(** C8, amended. [GET /api/health] always succeeds with a body
    [{success: true, message, cloudinary}], where the boolean field named
    [cloudinary] tells whether [CLOUDINARY_CLOUD_NAME] is set to a non-empty
    string. *)
Theorem health_reports_cloudinary (env : Env) (w : World) :
  health_shape "cloudinary" env w.
Proof. eexists _, _. repeat split. Qed.

(** As long as every request is handled to its end before the next one
    starts, the four counters are non-negative in every state reached from
    the empty initial state: the total is the number of stored records and
    each bucket is the number of stored records whose type falls into it. *)
Lemma counters_nonnegative (reqs : list (Env * Request)) :
  Forall (fun w =>
            (0 <= totalUploads (statsDatabase w)
             /\ 0 <= totalImages (statsDatabase w)
             /\ 0 <= totalVideos (statsDatabase w)
             /\ 0 <= totalOthers (statsDatabase w))
            /\ totalUploads (statsDatabase w) = Z.of_nat (length (filesDatabase w))
            /\ forall b, bucket_count b (statsDatabase w) = stored b (filesDatabase w))
         (states reqs initial).
Proof.
  eapply Forall_impl.
  - apply (states_invariant counted); [apply after_counted | exact initial_counted].
  - intros w Hw. split; [exact (counted_nonnegative w Hw) | exact Hw].
Qed.

(** C9. The counters do not stay non-negative on the server as it is: the
    delete handler looks the record up before its [await] (line 140) and
    decrements after it (lines 157-164) without looking again. One accepted
    upload from the empty initial state followed by two deletes of its id
    that both arrive before either is resumed ends with no record stored,
    [totalUploads = -1] and [totalImages = -1]; so it is not the case that
    every state reached from the empty initial state has non-negative
    counters. *)
Theorem overlapping_deletes_reach_negative_counters :
  let evs := [Arrives env_ok (PostUpload (Some png)); Completes env_ok 0%nat;
              Arrives env_ok (DeleteFile "uploads/cat_k3x");
              Arrives env_ok (DeleteFile "uploads/cat_k3x");
              Completes env_ok 0%nat; Completes env_ok 0%nat] in
  filesDatabase (world (play evs booted)) = []
  /\ statsDatabase (world (play evs booted))
     = {| totalUploads := -1; totalImages := -1; totalVideos := 0; totalOthers := 0 |}
  /\ response env_ok GetStats (world (play evs booted))
     = Some (res_json
               [("success", JBool true);
                ("stats", JStats {| totalUploads := -1; totalImages := -1;
                                    totalVideos := 0; totalOthers := 0 |})])
  /\ ~ (forall evs',
          Forall (fun s => nonnegative (statsDatabase (world s)))
                 (server_states evs' booted)).
Proof.
  intros evs. repeat split.
  intros H. specialize (H evs).
  assert (server_states evs booted !! 5%nat = Some (play evs booted)) as Hlast
    by reflexivity.
  pose proof (Forall_lookup_1 _ _ _ _ H Hlast) as [Hneg _].
  vm_compute in Hneg. by apply Hneg.
Qed.

(** C10. The destroy call for a stored record is made with the resource type
    kept in the record, which is the one the provider reported when the
    record was made, and with ["image"] when that field is undefined or
    empty, whatever the MIME type of the record. *)
Theorem destroy_resource_type (env : Env) (fileId : string) (file : FileRecord) (w : World) :
  List.find (has_id fileId) (filesDatabase w) = Some file ->
  (forall env0 file0 result,
      resourceType (fileData env0 file0 result) = result_resource_type result)
  /\ exists rt,
      cloudinaryCalls (after env (DeleteFile fileId) w)
      = (cloudinaryCalls w ++ [CallDestroy fileId rt])%list
      /\ (forall s, resourceType file = Some s -> s <> "" -> rt = s)
      /\ (resourceType file = None \/ resourceType file = Some "" -> rt = "image").
Proof.
  intros Hfind. split; [reflexivity|].
  exists (js_or (resourceType file) "image"). split.
  - unfold after. cbn [handle].
    destruct (destroy (cloudinary env) fileId (js_or (resourceType file) "image"))
      as [|e] eqn:Hd.
    + by rewrite (delete_handler_resolved env fileId file w Hfind Hd).
    + by rewrite (delete_handler_rejected env fileId file w e Hfind Hd).
  - split.
    + intros s -> Hs. cbn. apply String.eqb_neq in Hs. by rewrite Hs.
    + intros [->| ->]; reflexivity.
Qed.

Lemma destroy_resource_type_witness :
  List.find (has_id "uploads/cat_k3x") (filesDatabase one_cat)
  = Some (fileData env_ok png stored_cat)
  /\ cloudinaryCalls (after env_down (DeleteFile "uploads/cat_k3x") one_cat)
     = (cloudinaryCalls one_cat ++ [CallDestroy "uploads/cat_k3x" "image"])%list.
Proof.
  split; [reflexivity|].
  destruct (destroy_resource_type env_down "uploads/cat_k3x"
              (fileData env_ok png stored_cat) one_cat eq_refl) as (_ & rt & Hc & Hs & _).
  rewrite Hc. rewrite (Hs "image" eq_refl); [reflexivity | discriminate].
Defined.

(** ** Runs on concrete requests *)

(** An image, then a video, then the delete of the image. *)
Example newest_first_run :
  map (fun w => (map id (filesDatabase w), statsDatabase w))
      (states [(env_ok, PostUpload (Some png)); (env_terse, PostUpload (Some mp4));
               (env_ok, DeleteFile "uploads/cat_k3x"); (env_ok, DeleteFile "nonexistent")]
              initial)
  = [(["uploads/cat_k3x"],
      {| totalUploads := 1; totalImages := 1; totalVideos := 0; totalOthers := 0 |});
     (["uploads/clip_9qz"; "uploads/cat_k3x"],
      {| totalUploads := 2; totalImages := 1; totalVideos := 1; totalOthers := 0 |});
     (["uploads/clip_9qz"],
      {| totalUploads := 1; totalImages := 0; totalVideos := 1; totalOthers := 0 |});
     (["uploads/clip_9qz"],
      {| totalUploads := 1; totalImages := 0; totalVideos := 1; totalOthers := 0 |})].
Proof. reflexivity. Qed.

(** An upload request without a file is answered 400 and changes nothing. *)
Example no_file_run :
  handle env_ok (PostUpload None) one_cat
  = (Normal (res_status_json 400
               [("success", JBool false); ("message", JString "No file uploaded")]),
     one_cat).
Proof. reflexivity. Qed.

(** A video stored without a resource type is destroyed as an image. *)
Example destroy_default_run :
  cloudinaryCalls
    (after env_ok (DeleteFile "uploads/clip_9qz")
       (after env_terse (PostUpload (Some mp4)) initial))
  = [CallUpload {| resource_type := "video"; folder := "uploads";
                   use_filename := true; unique_filename := true |} "MP4";
     CallDestroy "uploads/clip_9qz" "image"].
Proof. reflexivity. Qed.

(** The health response when no cloud name is configured. *)
Example health_run :
  response env_terse GetHealth initial
  = Some (res_json [("success", JBool true); ("message", JString "Server is running");
                    ("cloudinary", JBool false)]).
Proof. reflexivity. Qed.

(** ** Every path through the handlers *)

Lemma upload_handler_callback_error (env : Env) (file : UploadedFile) (e : string)
    (w : World) :
  upload_stream (cloudinary env) (sent_options file) (buffer file) = CallbackError e ->
  upload_handler env (Some file) w =
  (Normal (res_status_json 500
             [("success", JBool false); ("message", JString "Upload failed");
              ("error", JString e)]),
   logged w (CallUpload (sent_options file) (buffer file))).
Proof. intros H. unfold sent_options in *. run_js. by rewrite H. Qed.

Lemma upload_handler_thrown (env : Env) (file : UploadedFile) (e : string) (w : World) :
  upload_stream (cloudinary env) (sent_options file) (buffer file) = UploadThrows e ->
  upload_handler env (Some file) w =
  (Normal (res_status_json 500
             [("success", JBool false); ("message", JString "Server error");
              ("error", JString e)]),
   logged w (CallUpload (sent_options file) (buffer file))).
Proof. intros H. unfold sent_options in *. run_js. by rewrite H. Qed.

Lemma handle_handled (env : Env) (req : Request) (w : World) :
  exists r w', handle env req w = (Normal r, w') /\ handled env w req r w'.
Proof.
  destruct req as [|[file|]|fileId| |]; cbn [handle].
  - eexists _, _. split; [reflexivity | constructor].
  - destruct (upload_stream (cloudinary env) (sent_options file) (buffer file))
      as [e|e|result] eqn:E.
    + eexists _, _. split; [exact (upload_handler_thrown env file e w E)|].
      by apply HandledUploadThrown.
    + eexists _, _. split; [exact (upload_handler_callback_error env file e w E)|].
      by apply HandledUploadError.
    + eexists _, _. split; [exact (upload_handler_result env file result w E)|].
      by apply HandledUpload.
  - eexists _, _. split; [reflexivity | constructor].
  - destruct (List.find (has_id fileId) (filesDatabase w)) as [file|] eqn:Hfind.
    + destruct (destroy (cloudinary env) fileId (js_or (resourceType file) "image"))
        as [|e] eqn:Hd.
      * eexists _, _. split; [exact (delete_handler_resolved env fileId file w Hfind Hd)|].
        by apply HandledDelete.
      * eexists _, _. split; [exact (delete_handler_rejected env fileId file w e Hfind Hd)|].
        by apply HandledDeleteError.
    + eexists _, _. split; [exact (delete_handler_absent env fileId w Hfind)|].
      by apply HandledUnknown.
  - eexists _, _. split; [reflexivity | constructor].
  - eexists _, _. split; [reflexivity | constructor].
Qed.

Lemma response_handled (env : Env) (req : Request) (w : World) (r : Response) :
  response env req w = Some r -> handled env w req r (after env req w).
Proof.
  destruct (handle_handled env req w) as (r' & w' & H & Hc).
  unfold response, after. rewrite H. by intros [= <-].
Qed.

Lemma response_total (env : Env) (req : Request) (w : World) :
  exists r, response env req w = Some r.
Proof.
  destruct (handle_handled env req w) as (r' & w' & H & Hc).
  exists r'. unfold response. by rewrite H.
Qed.

Lemma find_present_id (fileId : string) (fs : list FileRecord) (file : FileRecord) :
  List.find (has_id fileId) fs = Some file -> In file fs /\ id file = fileId.
Proof.
  intros H. apply List.find_some in H as [Hin Hid]. split; [exact Hin|].
  by apply String.eqb_eq.
Qed.

Lemma find_absent_In_iff (fileId : string) (fs : list FileRecord) :
  List.find (has_id fileId) fs = None <-> forall f, In f fs -> id f <> fileId.
Proof.
  split; [|apply find_absent_In].
  intros H f Hin Hid. pose proof (List.find_none _ _ H f Hin) as Hf.
  unfold has_id in Hf. apply String.eqb_neq in Hf. contradiction.
Qed.

(** ** Responses *)

(** X1. Every request that reaches one of the five route handlers is
    answered by it, with status 200, 400, 404 or 500; the [success] field of
    the body is [true] exactly when the status is 200, and every other
    response of a handler carries a [message]. *)
Theorem responses_flag_success (env : Env) (req : Request) (w : World) :
  exists r,
    response env req w = Some r
    /\ (status r = 200 \/ status r = 400 \/ status r = 404 \/ status r = 500)
    /\ field "success" (body r) = Some (JBool (status r =? 200))
    /\ (status r <> 200 -> exists m, field "message" (body r) = Some (JString m)).
Proof.
  destruct (response_total env req w) as [r Hr]. exists r. split; [exact Hr|].
  destruct (response_handled env req w r Hr); cbn;
    (split; [tauto|]); (split; [reflexivity|]); intros Hne; try (by destruct Hne); eauto.
Qed.

Lemma responses_flag_success_witness :
  exists r,
    response env_down (DeleteFile "uploads/cat_k3x") one_cat = Some r
    /\ status r = 500
    /\ field "success" (body r) = Some (JBool false)
    /\ exists m, field "message" (body r) = Some (JString m).
Proof.
  destruct (responses_flag_success env_down (DeleteFile "uploads/cat_k3x") one_cat)
    as (r & Hr & _ & Hs & Hm).
  injection Hr as <-. eexists. split; [reflexivity|]. split; [reflexivity|].
  split; [exact Hs|]. apply Hm. discriminate.
Defined.

(** X2. What each error status of a route handler stands for: a handler
    answers 400 to an upload that reached it without a file and to nothing
    else; 404 to a delete of an id that no stored record has and to nothing
    else; 500 to a failure of the provider (an upload whose call throws or
    whose callback gets an error, or a delete of a stored record whose
    destroy is rejected) and to nothing else. *)
Theorem status_codes (env : Env) (req : Request) (w : World) (r : Response) :
  response env req w = Some r ->
  (status r = 400 <-> req = PostUpload None)
  /\ (status r = 404 <->
      exists fileId, req = DeleteFile fileId
                     /\ forall f, In f (filesDatabase w) -> id f <> fileId)
  /\ (status r = 500 <->
      (exists file e,
          req = PostUpload (Some file)
          /\ (upload_stream (cloudinary env) (sent_options file) (buffer file)
              = CallbackError e
              \/ upload_stream (cloudinary env) (sent_options file) (buffer file)
                 = UploadThrows e))
      \/ (exists fileId file e,
             req = DeleteFile fileId
             /\ List.find (has_id fileId) (filesDatabase w) = Some file
             /\ destroy (cloudinary env) fileId (js_or (resourceType file) "image")
                = Rejected e)).
Proof.
  intros Hr. pose proof (response_handled env req w r Hr) as Hc.
  destruct Hc as [ | | | |file result Hup|file e Hup|file e Hup|fileId Hfind
                  |fileId file Hfind Hd|fileId file e Hfind Hd];
    cbn [status res_json res_status_json]; repeat split.
  all: try (intros H; first [reflexivity | discriminate H]).
  all: try (intros (fileId' & Hreq & Habs); first [discriminate Hreq | reflexivity]).
  all: try (intros [(file' & e' & Hreq & Hf)|(fileId' & file' & e' & Hreq & Hf & Hd')];
            first [discriminate Hreq | reflexivity]).
  - intros [(file' & e' & Hreq & Hf)|(fileId' & file' & e' & Hreq & Hf & Hd')];
      [|discriminate Hreq].
    injection Hreq as <-. destruct Hf; congruence.
  - intros _. left. eauto 6.
  - intros _. left. eauto 6.
  - intros _. exists fileId. split; [reflexivity|]. by apply find_absent_In_iff.
  - intros [(file' & e' & Hreq & Hf)|(fileId' & file' & e' & Hreq & Hf & Hd')];
      [discriminate Hreq|].
    injection Hreq as <-. congruence.
  - intros (fileId' & Hreq & Habs). injection Hreq as <-.
    apply find_absent_In_iff in Habs. congruence.
  - intros [(file' & e' & Hreq & Hf)|(fileId' & file' & e' & Hreq & Hf & Hd')];
      [discriminate Hreq|].
    injection Hreq as <-. congruence.
  - intros (fileId' & Hreq & Habs). injection Hreq as <-.
    apply find_absent_In_iff in Habs. congruence.
  - intros _. right. eauto 7.
Qed.

Lemma status_codes_witness :
  response env_ok (DeleteFile "uploads/dog") one_cat
  = Some (res_status_json 404
            [("success", JBool false); ("message", JString "File not found")])
  /\ exists fileId, DeleteFile "uploads/dog" = DeleteFile fileId
                    /\ forall f, In f (filesDatabase one_cat) -> id f <> fileId.
Proof.
  split; [reflexivity|].
  apply (status_codes env_ok (DeleteFile "uploads/dog") one_cat _ eq_refl). reflexivity.
Defined.

(** X3. What the provider is asked to do: an upload that has a file calls
    [upload_stream] once, with the options of lines 74-79; a delete of a
    stored id calls [destroy] once, with that id and the stored resource
    type, or ["image"]; this whatever the outcome of the call; no other
    request calls the provider. When [upload_stream] does not throw, the
    buffer of the file is handed over as well. *)
Theorem provider_traffic (env : Env) (req : Request) (w : World) :
  map asked (cloudinaryCalls (after env req w))
  = (map asked (cloudinaryCalls w)
     ++ match req with
        | PostUpload (Some file) =>
            [AskedUpload {| resource_type := upload_resourceType (mimetype file);
                            folder := "uploads"; use_filename := true;
                            unique_filename := true |}]
        | DeleteFile fileId =>
            match List.find (has_id fileId) (filesDatabase w) with
            | Some file => [AskedDestroy fileId (js_or (resourceType file) "image")]
            | None => []
            end
        | _ => []
        end)%list
  /\ (forall file,
        req = PostUpload (Some file) ->
        (forall e, upload_stream (cloudinary env) (sent_options file) (buffer file)
                   <> UploadThrows e) ->
        cloudinaryCalls (after env req w)
        = (cloudinaryCalls w ++ [CallUpload (sent_options file) (buffer file)])%list).
Proof.
  destruct (response_total env req w) as [r Hr].
  destruct (response_handled env req w r Hr)
    as [ | | | |file result Hup|file e Hup|file e Hup|fileId Hfind
        |fileId file Hfind Hd|fileId file e Hfind Hd];
    (split; [rewrite ?Hfind; cbn [cloudinaryCalls logged]; rewrite ?map_app, ?app_nil_r;
             reflexivity|]);
    intros file' Hreq Hnothrow; try discriminate Hreq; injection Hreq as <-;
    reflexivity.
Qed.

Lemma provider_traffic_witness :
  cloudinaryCalls (after env_down (PostUpload (Some png)) one_cat)
  = (cloudinaryCalls one_cat ++ [CallUpload (sent_options png) (buffer png)])%list.
Proof.
  apply (provider_traffic env_down (PostUpload (Some png)) one_cat); [reflexivity|].
  intros e. discriminate.
Defined.

(** X4. The [stats] of a response are the counters as they are once the
    request is done: [GET /api/stats] right after returns the same ones. *)
Theorem reported_stats_are_current (env env' : Env) (req : Request) (w : World)
    (r : Response) (s : Stats) :
  response env req w = Some r ->
  field "stats" (body r) = Some (JStats s) ->
  s = statsDatabase (after env req w)
  /\ exists r', response env' GetStats (after env req w) = Some r'
                /\ field "stats" (body r') = Some (JStats s).
Proof.
  intros Hr Hs.
  assert (s = statsDatabase (after env req w)) as ->.
  { revert Hs. destruct (response_handled env req w r Hr); cbn; congruence. }
  split; [reflexivity|]. eexists. split; reflexivity.
Qed.

Lemma reported_stats_are_current_witness :
  exists r', response env_down GetStats one_cat = Some r'
             /\ field "stats" (body r')
                = Some (JStats {| totalUploads := 1; totalImages := 1;
                                  totalVideos := 0; totalOthers := 0 |}).
Proof.
  apply (reported_stats_are_current env_ok env_down (PostUpload (Some png)) initial
           _ _ eq_refl eq_refl).
Defined.

(** X5. The [file] of the response to a successful upload is the record that
    [GET /api/files] lists first right after, and it carries the id and URL
    the provider gave, the name, type and size of the uploaded file, and the
    time of the callback. *)
Theorem uploaded_file_is_listed_first (env env' : Env) (file : UploadedFile)
    (result : UploadResult) (w : World) :
  upload_stream (cloudinary env) (sent_options file) (buffer file) = CallbackResult result ->
  exists r f fs r',
    response env (PostUpload (Some file)) w = Some r
    /\ field "file" (body r) = Some (JFile f)
    /\ response env' GetFiles (after env (PostUpload (Some file)) w) = Some r'
    /\ field "files" (body r') = Some (JFiles (f :: fs))
    /\ id f = public_id result /\ url f = secure_url result
    /\ name f = originalname file /\ type f = mimetype file /\ size f = file_size file
    /\ timestamp f = now env.
Proof.
  intros H. unfold response, after. cbn [handle].
  rewrite (upload_handler_result env file result w H).
  eexists _, _, _, _. repeat split.
Qed.

Lemma uploaded_file_is_listed_first_witness :
  exists r f fs r',
    response env_ok (PostUpload (Some png)) initial = Some r
    /\ field "file" (body r) = Some (JFile f)
    /\ response env_down GetFiles one_cat = Some r'
    /\ field "files" (body r') = Some (JFiles (f :: fs))
    /\ id f = "uploads/cat_k3x" /\ url f = "https://res.example/uploads/cat_k3x.png"
    /\ name f = "cat.png" /\ type f = "image/png" /\ size f = 100
    /\ timestamp f = "2024-01-01T00:00:00.000Z".
Proof.
  apply (uploaded_file_is_listed_first env_ok env_down png stored_cat initial). reflexivity.
Defined.

(** X6. The thumbnail of a stored record is the provider's [thumbnail_url]
    when that is a non-empty string and the record's URL otherwise; so it is
    never empty when the URL is not. *)
Theorem thumbnail_falls_back_to_url (env : Env) (file : UploadedFile)
    (result : UploadResult) (w : World) :
  upload_stream (cloudinary env) (sent_options file) (buffer file) = CallbackResult result ->
  exists f fs,
    filesDatabase (after env (PostUpload (Some file)) w) = f :: fs
    /\ (forall t, thumbnail_url result = Some t -> t <> "" -> thumbnail f = t)
    /\ (thumbnail_url result = None \/ thumbnail_url result = Some "" ->
        thumbnail f = url f)
    /\ (secure_url result <> "" -> thumbnail f <> "").
Proof.
  intros H. unfold after. cbn [handle].
  rewrite (upload_handler_result env file result w H). cbn [snd filesDatabase].
  eexists _, _. split; [reflexivity|]. cbn [thumbnail url fileData]. repeat split.
  - intros t -> Ht. cbn. apply String.eqb_neq in Ht. by rewrite Ht.
  - intros [-> | ->]; reflexivity.
  - intros Hu. destruct (thumbnail_url result) as [t|]; cbn; [|exact Hu].
    destruct (String.eqb_spec t ""); [exact Hu | assumption].
Qed.

Lemma thumbnail_falls_back_to_url_witness :
  exists f fs,
    filesDatabase one_cat = f :: fs
    /\ thumbnail f = url f /\ thumbnail f <> "".
Proof.
  destruct (thumbnail_falls_back_to_url env_ok png stored_cat initial eq_refl)
    as (f & fs & Hf & _ & Hnone & Hne).
  exists f, fs. split; [exact Hf|]. split.
  - apply Hnone. left. reflexivity.
  - injection Hf as <- _. discriminate.
Defined.

(** X7. The resource type an upload is sent with and the bucket it is
    counted in agree, although the two tests are made in opposite orders:
    [image] goes with images, [video] with videos, [raw] with others. *)
Theorem routing_agrees_with_bucket (t : string) :
  (upload_resourceType t = "image" <-> classify t = images)
  /\ (upload_resourceType t = "video" <-> classify t = videos)
  /\ (upload_resourceType t = "raw" <-> classify t = others).
Proof.
  unfold upload_resourceType, classify.
  destruct (startsWith t "image/") eqn:Hi.
  - rewrite (prefix_image_not_video _ Hi). repeat split; intros; congruence.
  - destruct (startsWith t "video/"); repeat split; intros; congruence.
Qed.

(** ** Which record a delete removes *)

Lemma find_first (fileId : string) (l1 l2 : list FileRecord) (file : FileRecord) :
  (forall f, In f l1 -> id f <> fileId) ->
  id file = fileId ->
  List.find (has_id fileId) (l1 ++ file :: l2)%list = Some file
  /\ findIndex (has_id fileId) (l1 ++ file :: l2)%list = Z.of_nat (length l1).
Proof.
  intros Hl1 Hid. induction l1 as [|g l1 IH]; cbn [app List.find findIndex length].
  - unfold has_id at 1 3. rewrite Hid, String.eqb_refl. by split.
  - assert (has_id fileId g = false) as ->.
    { apply String.eqb_neq, Hl1. by left. }
    destruct IH as [-> ->]; [intros f Hf; apply Hl1; by right|].
    split; [reflexivity|].
    destruct (Z.eqb_spec (Z.of_nat (length l1)) (-1)); lia.
Qed.

Lemma find_split (fileId : string) (fs : list FileRecord) (file : FileRecord) :
  List.find (has_id fileId) fs = Some file ->
  exists l1 l2,
    fs = (l1 ++ file :: l2)%list /\ (forall f, In f l1 -> id f <> fileId) /\ id file = fileId.
Proof.
  induction fs as [|g fs IH]; cbn [List.find]; [discriminate|].
  destruct (has_id fileId g) eqn:Hg.
  - intros [= ->]. exists [], fs. split; [reflexivity|]. split; [intros f []|].
    by apply String.eqb_eq.
  - intros H. destruct (IH H) as (l1 & l2 & -> & Hl1 & Hid).
    exists (g :: l1), l2. split; [reflexivity|]. split; [|exact Hid].
    intros f [<-|Hf]; [by apply String.eqb_neq | by apply Hl1].
Qed.

Lemma map_id_app_cons (l1 l2 : list FileRecord) (file : FileRecord) :
  map id (l1 ++ file :: l2)%list = (map id l1 ++ id file :: map id l2)%list.
Proof. by rewrite map_app. Qed.

(** X9. The ids of the stored records stay pairwise different as long as
    the provider never gives an accepted upload an id that is already
    stored; the handlers themselves do not check this. *)
Theorem ids_stay_unique (env : Env) (req : Request) (w : World) :
  NoDup (map id (filesDatabase w)) ->
  (forall file result,
      req = PostUpload (Some file) ->
      upload_stream (cloudinary env) (sent_options file) (buffer file)
      = CallbackResult result ->
      ~ In (public_id result) (map id (filesDatabase w))) ->
  NoDup (map id (filesDatabase (after env req w))).
Proof.
  intros Hnd Hfresh. destruct (response_total env req w) as [r Hr].
  pose proof (response_handled env req w r Hr) as Hc.
  revert Hfresh. 
  destruct Hc as [ | | | |file result Hup|file e Hup|file e Hup|fileId Hfind
                  |fileId file Hfind Hd|fileId file e Hfind Hd];
    intros Hfresh; cbn [filesDatabase logged]; try exact Hnd.
  - cbn [map fileData id]. apply NoDup_cons. split; [|exact Hnd].
    rewrite list_elem_of_In. by apply (Hfresh file result).
  - destruct (find_split _ _ _ Hfind) as (l1 & l2 & Hw & Hl1 & Hid).
    destruct (find_first fileId l1 l2 file Hl1 Hid) as [_ Hidx].
    rewrite <- Hw in Hidx. rewrite Hidx, Nat2Z.id, Hw, delete_middle.
    rewrite Hw, map_id_app_cons in Hnd. rewrite map_app.
    apply NoDup_app in Hnd as (H1 & H12 & H2). apply NoDup_cons in H2 as [_ H2].
    apply NoDup_app. split; [exact H1|]. split; [|exact H2].
    intros x Hx Hx2. apply (H12 x Hx). by apply list_elem_of_further.
Qed.

Lemma ids_stay_unique_witness :
  NoDup (map id (filesDatabase (after env_terse (PostUpload (Some mp4)) one_cat))).
Proof.
  apply (ids_stay_unique env_terse (PostUpload (Some mp4)) one_cat).
  - cbn. apply NoDup_cons. split; [apply not_elem_of_nil | apply NoDup_nil_2].
  - intros file result [= <-] [= <-]. intros [H|[]]. discriminate H.
Defined.

(** ** Requests in flight *)

Ltac run_parts :=
  unfold start, resume, upload_start, delete_start, delete_resume; run_js.

Lemma delete_out_of_range {A : Type} (l : list A) (n : nat) :
  (length l <= n)%nat -> delete n l = l.
Proof.
  revert n. induction l as [|x l IH]; intros [|n] H; cbn in *; try reflexivity; [lia|].
  f_equal. apply IH. lia.
Qed.

Lemma splice1_nonneg {A : Type} (l : list A) (i : Z) :
  0 <= i -> splice1 i l = delete (Z.to_nat i) l.
Proof.
  intros Hi. unfold splice1. destruct (Z.ltb_spec i 0); [lia|].
  destruct (Z.le_gt_cases i (Z.of_nat (length l))).
  - f_equal. lia.
  - rewrite !delete_out_of_range; [reflexivity|lia..].
Qed.

(** Handling a request at once is starting it and resuming it right away. *)
Lemma handle_start_resume (env : Env) (req : Request) (w : World) :
  handle env req w =
  match start env req w with
  | (Normal (inl r), w') => (Normal r, w')
  | (Normal (inr p), w') => resume env p w'
  | (Thrown e, w') => (Thrown e, w')
  end.
Proof.
  destruct req as [|[file|]|fileId| |]; cbn [handle]; try reflexivity.
  - run_parts. destruct (upload_stream _ _ _); reflexivity.
  - run_parts.
    destruct (findIndex _ _ =? -1); [reflexivity|].
    destruct (filesDatabase w !! _) as [file|]; [|reflexivity]. cbn.
    destruct (destroy _ _ _); reflexivity.
Qed.

Lemma start_registry (env : Env) (req : Request) (w : World) :
  exists c, fst (start env req w) = Normal c
            /\ filesDatabase (snd (start env req w)) = filesDatabase w
            /\ statsDatabase (snd (start env req w)) = statsDatabase w.
Proof.
  destruct req as [|[file|]|fileId| |]; try (eexists; repeat split; fail).
  - run_parts. destruct (upload_stream _ _ _); eexists; repeat split.
  - run_parts.
    destruct (findIndex _ _ =? -1); [eexists; repeat split|].
    destruct (filesDatabase w !! _) as [file|]; eexists; repeat split.
Qed.

Lemma delete_start_present (env : Env) (fileId : string) (file : FileRecord) (w : World) :
  List.find (has_id fileId) (filesDatabase w) = Some file ->
  delete_start env fileId w =
  (Normal (inr (AwaitingDestroy (findIndex (has_id fileId) (filesDatabase w)) file
                  (destroy (cloudinary env) fileId (js_or (resourceType file) "image")))),
   logged w (CallDestroy fileId (js_or (resourceType file) "image"))).
Proof.
  intros Hfind. destruct (findIndex_present _ _ _ Hfind) as [Hge Hlk].
  unfold has_id in *. run_parts.
  destruct (Z.eqb_spec (findIndex (fun f => String.eqb (id f) fileId) (filesDatabase w)) (-1));
    [lia|].
  by rewrite Hlk.
Qed.

Lemma upload_start_result (env : Env) (file : UploadedFile) (w : World) :
  (forall e, upload_stream (cloudinary env) (sent_options file) (buffer file)
             <> UploadThrows e) ->
  exists args,
    upload_start env (Some file) w =
    (Normal (inr (AwaitingUpload file args)),
     logged w (CallUpload (sent_options file) (buffer file)))
    /\ (forall result,
          upload_stream (cloudinary env) (sent_options file) (buffer file)
          = CallbackResult result -> args = inr result).
Proof.
  intros H. unfold sent_options in *. run_parts.
  destruct (upload_stream _ _ _) as [e|e|result]; cbn.
  - destruct (H e eq_refl).
  - eexists. split; [reflexivity|]. discriminate.
  - eexists. split; [reflexivity|]. by intros ? [= ->].
Qed.

Lemma upload_callback_result (env : Env) (file : UploadedFile) (result : UploadResult)
    (w : World) :
  snd (upload_callback env file (inr result) w) =
  {| filesDatabase := fileData env file result :: filesDatabase w;
     statsDatabase := bump (classify (mimetype file)) 1 (statsDatabase w);
     cloudinaryCalls := cloudinaryCalls w |}.
Proof.
  rewrite bump_classify_cases. run_js.
  destruct (startsWith (mimetype file) "image/"); [reflexivity|].
  destruct (startsWith (mimetype file) "video/"); reflexivity.
Qed.

Lemma delete_resume_resolved (fileIndex : Z) (file : FileRecord) (w : World) :
  0 <= fileIndex ->
  snd (delete_resume fileIndex file Resolved w) =
  {| filesDatabase := delete (Z.to_nat fileIndex) (filesDatabase w);
     statsDatabase := bump (classify (type file)) (-1) (statsDatabase w);
     cloudinaryCalls := cloudinaryCalls w |}.
Proof.
  intros Hi. rewrite <- (splice1_nonneg _ _ Hi), bump_classify_cases. run_parts.
  destruct (startsWith (type file) "image/"); [reflexivity|].
  destruct (startsWith (type file) "video/"); reflexivity.
Qed.

Lemma resume_stats (env : Env) (p : Pending) (w : World) :
  statsDatabase (snd (resume env p w)) = statsDatabase w
  \/ exists b d, statsDatabase (snd (resume env p w)) = bump b d (statsDatabase w).
Proof.
  destruct p as [file [e|result]|fileIndex file [|e]].
  - left. reflexivity.
  - right. cbn [resume]. rewrite upload_callback_result. eauto.
  - right. exists (classify (type file)), (-1). rewrite bump_classify_cases. run_parts.
    destruct (startsWith (type file) "image/"); [reflexivity|].
    destruct (startsWith (type file) "video/"); reflexivity.
  - left. reflexivity.
Qed.

Lemma step_consistent (ev : Event) (s : Server) :
  consistent (world s) -> consistent (world (step ev s)).
Proof.
  intros H. destruct ev as [env req|env k]; cbn [step].
  - destruct (start_registry env req (world s)) as (c & Hc & _ & Hs).
    assert (statsDatabase (world (match start env req (world s) with
                                  | (Normal (inr p), w') =>
                                      {| world := w'; inflight := inflight s ++ [p] |}
                                  | (_, w') => {| world := w'; inflight := inflight s |}
                                  end)) = statsDatabase (world s)) as E.
    { destruct (start env req (world s)) as [[[r|p]|e] w']; exact Hs. }
    unfold consistent. by rewrite E.
  - destruct (inflight s !! k) as [p|]; [|exact H]. cbn [world].
    unfold consistent in *.
    destruct (resume_stats env p (world s)) as [->|(b & d & ->)];
      auto using bump_consistent.
Qed.

(** Handling a request at once, as [handle] does, is the arrival of the
    request followed by the completion of what it left suspended, with
    nothing in between. *)
Lemma handling_at_once (env : Env) (req : Request) (w : World) :
  play [Arrives env req; Completes env 0%nat] {| world := w; inflight := [] |}
  = {| world := after env req w; inflight := [] |}.
Proof.
  unfold after. rewrite handle_start_resume.
  unfold play. cbn [fold_left step world inflight].
  destruct (start_registry env req w) as (c & Hc & _).
  destruct (start env req w) as [[[r|p]|e] w']; cbn in Hc; try discriminate; cbn.
  - reflexivity.
  - by destruct (resume env p w').
Qed.

(** X13. [totalUploads = totalImages + totalVideos + totalOthers] also holds
    after every event when requests overlap: whatever the order in which
    requests arrive and suspended handlers are resumed. *)
Theorem total_is_sum_in_flight (evs : list Event) :
  Forall (fun s =>
            totalUploads (statsDatabase (world s))
            = totalImages (statsDatabase (world s)) + totalVideos (statsDatabase (world s))
              + totalOthers (statsDatabase (world s)))
         (server_states evs booted).
Proof.
  assert (forall s, consistent (world s) ->
                    Forall (fun s => consistent (world s)) (server_states evs s)) as H.
  { induction evs as [|ev evs IH]; intros s Hs; cbn; constructor.
    - by apply step_consistent.
    - apply IH. by apply step_consistent. }
  apply (H booted). reflexivity.
Qed.

(** X14. Two deletes of the same stored id that both arrive before either is
    resumed both find the record, both call the provider, and (when both
    calls resolve) both take one from the total and from the record's bucket
    and both splice at the index found at arrival: the record and the one
    after it are removed, and the counters go down by two. *)
Theorem overlapping_deletes (env1 env2 env3 env4 : Env) (fileId : string)
    (file : FileRecord) (w : World) :
  List.find (has_id fileId) (filesDatabase w) = Some file ->
  destroy (cloudinary env1) fileId (js_or (resourceType file) "image") = Resolved ->
  destroy (cloudinary env2) fileId (js_or (resourceType file) "image") = Resolved ->
  let s := play [Arrives env1 (DeleteFile fileId); Arrives env2 (DeleteFile fileId);
                 Completes env3 0%nat; Completes env4 0%nat]
                {| world := w; inflight := [] |} in
  let i := Z.to_nat (findIndex (has_id fileId) (filesDatabase w)) in
  inflight s = []
  /\ filesDatabase (world s) = delete i (delete i (filesDatabase w))
  /\ totalUploads (statsDatabase (world s)) = totalUploads (statsDatabase w) - 2
  /\ bucket_count (classify (type file)) (statsDatabase (world s))
     = bucket_count (classify (type file)) (statsDatabase w) - 2
  /\ cloudinaryCalls (world s)
     = (cloudinaryCalls w
        ++ [CallDestroy fileId (js_or (resourceType file) "image");
            CallDestroy fileId (js_or (resourceType file) "image")])%list.
Proof.
  intros Hfind Hd1 Hd2 s i.
  destruct (findIndex_present _ _ _ Hfind) as [Hge _].
  assert (s = {| world :=
                   {| filesDatabase := delete i (delete i (filesDatabase w));
                      statsDatabase :=
                        bump (classify (type file)) (-1)
                          (bump (classify (type file)) (-1) (statsDatabase w));
                      cloudinaryCalls :=
                        (cloudinaryCalls w ++ [CallDestroy fileId (js_or (resourceType file) "image")])
                        ++ [CallDestroy fileId (js_or (resourceType file) "image")] |};
                 inflight := [] |}) as ->.
  { unfold s, play. cbn [fold_left]. unfold step at 4. cbn [start world inflight].
    rewrite (delete_start_present env1 fileId file w Hfind), Hd1.
    unfold step at 3. cbn [start world inflight].
    rewrite (delete_start_present env2 fileId file (logged w (CallDestroy fileId (js_or (resourceType file) "image"))) Hfind), Hd2.
    unfold step at 2. cbn [world inflight app lookup list_lookup resume delete list_delete].
    rewrite (delete_resume_resolved _ file _ Hge).
    unfold step. cbn [world inflight app lookup list_lookup resume delete list_delete].
    rewrite (delete_resume_resolved _ file _ Hge). reflexivity. }
  cbn [world inflight filesDatabase statsDatabase cloudinaryCalls].
  split; [reflexivity|]. split; [reflexivity|].
  split; [cbn; lia|]. split; [rewrite !bucket_count_bump; by_buckets|].
  by rewrite <- app_assoc.
Qed.

Lemma overlapping_deletes_witness :
  let s := play [Arrives env_ok (DeleteFile "uploads/cat_k3x");
                 Arrives env_ok (DeleteFile "uploads/cat_k3x");
                 Completes env_ok 0%nat; Completes env_ok 0%nat]
                {| world := one_cat; inflight := [] |} in
  filesDatabase (world s) = []
  /\ totalUploads (statsDatabase (world s)) = totalUploads (statsDatabase one_cat) - 2
  /\ totalUploads (statsDatabase (world s)) = -1.
Proof.
  destruct (overlapping_deletes env_ok env_ok env_ok env_ok "uploads/cat_k3x"
              (fileData env_ok png stored_cat) one_cat eq_refl eq_refl eq_refl)
    as (_ & Hf & Ht & _).
  split; [exact Hf|]. split; [exact Ht|]. reflexivity.
Defined.

(** X15. When an upload is completed while a delete is suspended, the delete
    still splices at the index it found before: the new record has moved
    every older one down by one, so the record that was looked up (and
    destroyed at the provider) stays listed, at the index that was found,
    and another record is removed in its place; when it was the first one,
    the list ends up as it was before both requests. *)
Theorem upload_during_delete (env1 env2 env3 env4 : Env) (fileId : string)
    (file : FileRecord) (upload : UploadedFile) (result : UploadResult) (w : World) :
  List.find (has_id fileId) (filesDatabase w) = Some file ->
  destroy (cloudinary env1) fileId (js_or (resourceType file) "image") = Resolved ->
  upload_stream (cloudinary env2) (sent_options upload) (buffer upload)
  = CallbackResult result ->
  let s := play [Arrives env1 (DeleteFile fileId); Arrives env2 (PostUpload (Some upload));
                 Completes env3 1%nat; Completes env4 0%nat]
                {| world := w; inflight := [] |} in
  let i := Z.to_nat (findIndex (has_id fileId) (filesDatabase w)) in
  inflight s = []
  /\ filesDatabase (world s) = delete i (fileData env3 upload result :: filesDatabase w)
  /\ filesDatabase (world s) !! i = Some file
  /\ (i = 0%nat -> filesDatabase (world s) = filesDatabase w)
  /\ statsDatabase (world s)
     = bump (classify (type file)) (-1)
         (bump (classify (mimetype upload)) 1 (statsDatabase w))
  /\ In (CallDestroy fileId (js_or (resourceType file) "image")) (cloudinaryCalls (world s)).
Proof.
  intros Hfind Hd Hup s i.
  destruct (findIndex_present _ _ _ Hfind) as [Hge Hlk]. fold i in Hlk.
  assert (s = {| world :=
                   {| filesDatabase := delete i (fileData env3 upload result :: filesDatabase w);
                      statsDatabase :=
                        bump (classify (type file)) (-1)
                          (bump (classify (mimetype upload)) 1 (statsDatabase w));
                      cloudinaryCalls :=
                        (cloudinaryCalls w ++ [CallDestroy fileId (js_or (resourceType file) "image")])
                        ++ [CallUpload (sent_options upload) (buffer upload)] |};
                 inflight := [] |}) as ->.
  { unfold s, play. cbn [fold_left]. unfold step at 4. cbn [start world inflight].
    rewrite (delete_start_present env1 fileId file w Hfind), Hd.
    unfold step at 3. cbn [start world inflight].
    destruct (upload_start_result env2 upload (logged w (CallDestroy fileId (js_or (resourceType file) "image")))) as (args & -> & Hargs);
      [intros e; rewrite Hup; discriminate|].
    rewrite (Hargs result Hup).
    unfold step at 2. cbn [world inflight app lookup list_lookup resume delete list_delete].
    rewrite upload_callback_result.
    unfold step. cbn [world inflight app lookup list_lookup resume delete list_delete].
    rewrite (delete_resume_resolved _ file _ Hge). reflexivity. }
  cbn [world inflight filesDatabase statsDatabase cloudinaryCalls].
  split; [reflexivity|]. split; [reflexivity|]. split.
  { rewrite list_lookup_delete_ge by lia. exact Hlk. }
  split; [by intros ->|]. split; [reflexivity|].
  apply in_or_app. left. apply in_or_app. right. by left.
Qed.

Lemma upload_during_delete_witness :
  let s := play [Arrives env_ok (DeleteFile "uploads/cat_k3x");
                 Arrives env_terse (PostUpload (Some mp4));
                 Completes env_terse 1%nat; Completes env_ok 0%nat]
                {| world := one_cat; inflight := [] |} in
  filesDatabase (world s) = filesDatabase one_cat
  /\ filesDatabase (world s) !! 0%nat = Some (fileData env_ok png stored_cat)
  /\ In (CallDestroy "uploads/cat_k3x" "image") (cloudinaryCalls (world s)).
Proof.
  destruct (upload_during_delete env_ok env_terse env_terse env_ok "uploads/cat_k3x"
              (fileData env_ok png stored_cat) mp4
              {| public_id := "uploads/clip_9qz";
                 secure_url := "https://res.example/uploads/clip_9qz.mp4";
                 thumbnail_url := None; result_format := None;
                 result_resource_type := None |}
              one_cat eq_refl eq_refl eq_refl)
    as (_ & _ & Hl & Hsame & _ & Hc).
  split; [apply Hsame; reflexivity|]. split; [exact Hl | exact Hc].
Defined.

Lemma delete_resume_resolved_any (fileIndex : Z) (file : FileRecord) (w : World) :
  snd (delete_resume fileIndex file Resolved w) =
  {| filesDatabase := splice1 fileIndex (filesDatabase w);
     statsDatabase := bump (classify (type file)) (-1) (statsDatabase w);
     cloudinaryCalls := cloudinaryCalls w |}.
Proof.
  rewrite bump_classify_cases. run_parts.
  destruct (startsWith (type file) "image/"); [reflexivity|].
  destruct (startsWith (type file) "video/"); reflexivity.
Qed.

Lemma length_splice1 {A : Type} (l : list A) (i : Z) :
  Z.of_nat (length l) - 1 <= Z.of_nat (length (splice1 i l)).
Proof.
  unfold splice1. set (n := Z.to_nat _). clearbody n.
  destruct (l !! n) as [x|] eqn:E.
  - assert (is_Some (l !! n)) as Hs by eauto. rewrite (length_delete _ _ Hs). lia.
  - apply lookup_ge_None in E. rewrite delete_out_of_range by lia. lia.
Qed.

Lemma delete_start_absent (env : Env) (fileId : string) (w : World) :
  List.find (has_id fileId) (filesDatabase w) = None ->
  delete_start env fileId w =
  (Normal (inl (res_status_json 404
                  [("success", JBool false); ("message", JString "File not found")])), w).
Proof.
  intros H. apply findIndex_absent in H. unfold has_id in H. run_parts. by rewrite H.
Qed.

Lemma resumed_delete_files (env env' : Env) (fileId : string) (w w' : World)
    (l1 l2 : list FileRecord) (file : FileRecord) :
  filesDatabase w = (l1 ++ file :: l2)%list ->
  (forall f, In f l1 -> id f <> fileId) ->
  id file = fileId ->
  destroy (cloudinary env) fileId (js_or (resourceType file) "image") = Resolved ->
  filesDatabase w' = filesDatabase w ->
  exists p,
    fst (start env (DeleteFile fileId) w) = Normal (inr p)
    /\ filesDatabase (snd (resume env' p w')) = (l1 ++ l2)%list.
Proof.
  intros Hw Hl1 Hid Hd Hsame.
  destruct (find_first fileId l1 l2 file Hl1 Hid) as [Hfind Hidx].
  rewrite <- Hw in Hfind, Hidx. cbn [start].
  rewrite (delete_start_present env fileId file w Hfind), Hd.
  eexists. split; [reflexivity|]. cbn [resume].
  rewrite delete_resume_resolved by lia. cbn [filesDatabase].
  rewrite Hidx, Hsame, Hw, Nat2Z.id. apply delete_middle.
Qed.

(** X8. A delete whose destroy resolves, and which is resumed while the list
    is still the one the id was looked up in, removes the first record with
    the given id and nothing else: the records before it and the records
    after it stay, in the order they were in. *)
Theorem delete_removes_first (env env' : Env) (fileId : string) (w w' : World)
    (l1 l2 : list FileRecord) (file : FileRecord) :
  filesDatabase w = (l1 ++ file :: l2)%list ->
  (forall f, In f l1 -> id f <> fileId) ->
  id file = fileId ->
  destroy (cloudinary env) fileId (js_or (resourceType file) "image") = Resolved ->
  filesDatabase w' = filesDatabase w ->
  exists p,
    fst (start env (DeleteFile fileId) w) = Normal (inr p)
    /\ filesDatabase (snd (resume env' p w')) = (l1 ++ l2)%list.
Proof. exact (resumed_delete_files env env' fileId w w' l1 l2 file). Qed.

Lemma delete_removes_first_witness :
  exists p,
    fst (start env_ok (DeleteFile "uploads/cat_k3x")
           (after env_terse (PostUpload (Some mp4)) one_cat)) = Normal (inr p)
    /\ map id
         (filesDatabase
            (snd (resume env_down p
                    (after env_ok GetStats (after env_terse (PostUpload (Some mp4)) one_cat)))))
       = ["uploads/clip_9qz"].
Proof.
  destruct (delete_removes_first env_ok env_down "uploads/cat_k3x"
              (after env_terse (PostUpload (Some mp4)) one_cat)
              (after env_ok GetStats (after env_terse (PostUpload (Some mp4)) one_cat))
              [fileData env_terse mp4
                 {| public_id := "uploads/clip_9qz";
                    secure_url := "https://res.example/uploads/clip_9qz.mp4";
                    thumbnail_url := None; result_format := None;
                    result_resource_type := None |}]
              [] (fileData env_ok png stored_cat)) as (p & Hp & Hf).
  - reflexivity.
  - intros f [<-|[]]. discriminate.
  - reflexivity.
  - reflexivity.
  - reflexivity.
  - exists p. split; [exact Hp|]. rewrite Hf. reflexivity.
Defined.

(** X10. When the stored ids are pairwise different, a delete whose destroy
    resolves, resumed while the list is still the one the id was looked up
    in, is final: no record with that id is left, and a delete of the same
    id that arrives next is answered 404 at once, with no call to the
    provider and no change. *)
Theorem delete_is_final (env env' env'' : Env) (fileId : string) (file : FileRecord)
    (w w' : World) :
  NoDup (map id (filesDatabase w)) ->
  List.find (has_id fileId) (filesDatabase w) = Some file ->
  destroy (cloudinary env) fileId (js_or (resourceType file) "image") = Resolved ->
  filesDatabase w' = filesDatabase w ->
  exists p,
    fst (start env (DeleteFile fileId) w) = Normal (inr p)
    /\ (forall f, In f (filesDatabase (snd (resume env' p w'))) -> id f <> fileId)
    /\ start env'' (DeleteFile fileId) (snd (resume env' p w'))
       = (Normal (inl (res_status_json 404
                         [("success", JBool false); ("message", JString "File not found")])),
          snd (resume env' p w')).
Proof.
  intros Hnd Hfind Hd Hsame.
  destruct (find_split _ _ _ Hfind) as (l1 & l2 & Hw & Hl1 & Hid).
  destruct (resumed_delete_files env env' fileId w w' l1 l2 file Hw Hl1 Hid Hd Hsame)
    as (p & Hp & Hf).
  exists p. split; [exact Hp|].
  assert (forall f, In f (filesDatabase (snd (resume env' p w'))) -> id f <> fileId)
    as Hgone.
  { rewrite Hf. intros f Hin. apply in_app_or in Hin as [Hin|Hin]; [by apply Hl1|].
    rewrite Hw, map_id_app_cons in Hnd.
    apply NoDup_app in Hnd as (_ & _ & H2). apply NoDup_cons in H2 as [H2 _].
    intros Hf'. apply H2. apply list_elem_of_In. rewrite Hid, <- Hf'.
    by apply in_map. }
  split; [exact Hgone|].
  apply find_absent_In in Hgone. cbn [start].
  exact (delete_start_absent env'' fileId _ Hgone).
Qed.

Lemma delete_is_final_witness :
  exists p,
    fst (start env_ok (DeleteFile "uploads/cat_k3x") one_cat) = Normal (inr p)
    /\ fst (start env_down (DeleteFile "uploads/cat_k3x") (snd (resume env_ok p one_cat)))
       = Normal (inl (res_status_json 404
                        [("success", JBool false); ("message", JString "File not found")])).
Proof.
  destruct (delete_is_final env_ok env_ok env_down "uploads/cat_k3x"
              (fileData env_ok png stored_cat) one_cat one_cat) as (p & Hp & _ & H404).
  - cbn. apply NoDup_cons. split; [apply not_elem_of_nil | apply NoDup_nil_2].
  - reflexivity.
  - reflexivity.
  - reflexivity.
  - exists p. split; [exact Hp|]. by rewrite H404.
Defined.

Lemma step_total_le_length (ev : Event) (s : Server) :
  totalUploads (statsDatabase (world s)) <= Z.of_nat (length (filesDatabase (world s))) ->
  totalUploads (statsDatabase (world (step ev s)))
  <= Z.of_nat (length (filesDatabase (world (step ev s)))).
Proof.
  intros H. destruct ev as [env req|env k]; cbn [step].
  - destruct (start_registry env req (world s)) as (c & _ & Hf & Hs).
    destruct (start env req (world s)) as [[[r|p]|e] w']; cbn [snd] in Hf, Hs; cbn [world];
      by rewrite Hf, Hs.
  - destruct (inflight s !! k) as [p|]; [|exact H]. cbn [world].
    destruct p as [file [e|result]|fileIndex file [|e]]; cbn [resume].
    + exact H.
    + rewrite upload_callback_result. cbn [filesDatabase statsDatabase bump totalUploads length].
      lia.
    + rewrite delete_resume_resolved_any. cbn [filesDatabase statsDatabase bump totalUploads].
      pose proof (length_splice1 (filesDatabase (world s)) fileIndex). lia.
    + exact H.
Qed.

(** X11. Whatever the order in which requests arrive and suspended handlers
    are resumed, [totalUploads] never exceeds the number of stored records:
    an accepted upload adds one to both, and a resumed delete takes one from
    the total and at most one record from the list. *)
Theorem total_never_exceeds_stored (evs : list Event) :
  Forall (fun s =>
            totalUploads (statsDatabase (world s))
            <= Z.of_nat (length (filesDatabase (world s))))
         (server_states evs booted).
Proof.
  assert (forall s,
             totalUploads (statsDatabase (world s))
             <= Z.of_nat (length (filesDatabase (world s))) ->
             Forall (fun s => totalUploads (statsDatabase (world s))
                              <= Z.of_nat (length (filesDatabase (world s))))
                    (server_states evs s)) as H.
  { induction evs as [|ev evs IH]; intros s Hs; cbn; constructor.
    - by apply step_total_le_length.
    - apply IH. by apply step_total_le_length. }
  apply (H booted). reflexivity.
Qed.
